(** * Autocomplete form element: a shallow embedding of
      [src/elements/Autocomplete.tsx] and the properties of its value adapter,
      event bridge, portal mounting and rendering guards.

    The source file holds two revisions of the component: the first renders the
    listbox inline, the second renders it through a Popper portal.  The value
    adapter, the event callbacks and the clear button are textually the same in
    both; the parts that differ live in the modules [Inline] and [Portal]. *)

From Stdlib Require Import List String Ascii Bool Arith Lia Floats.
Import ListNotations.
Local Open Scope string_scope.
Local Open Scope list_scope.

(* ================================================================== *)
(** * JavaScript values *)

(** [type Primitive = string | number]; a JavaScript number is a binary64
    float. *)
Definition number := float.

Inductive Primitive : Type :=
| PStr (s : string)
| PNum (n : number).

(** The run-time values that flow through [value], [hookValue] and the event
    payloads.  The declared type of [value] is [Primitive | Primitive[] | null];
    [undefined] is what indexing an empty array or reading an absent property
    yields. *)
Inductive JsValue : Type :=
| VUndefined
| VNull
| VPrim (p : Primitive)
| VArr (items : list Primitive).

(** [FieldValue]: the declared type of the host-owned value. *)
Inductive FieldValue : Type :=
| FNull
| FPrim (p : Primitive)
| FArr (items : list Primitive).

Definition of_field (v : FieldValue) : JsValue :=
  match v with
  | FNull => VNull
  | FPrim p => VPrim p
  | FArr l => VArr l
  end.

(** [v == null]: true of [null] and of [undefined]. *)
Definition loose_null (v : JsValue) : bool :=
  match v with VUndefined | VNull => true | _ => false end.

(** [a ?? b]. *)
Definition nullish (a b : JsValue) : JsValue :=
  if loose_null a then b else a.

(** [arr[i]]: [undefined] past the end. *)
Definition array_get (l : list Primitive) (i : nat) : JsValue :=
  match nth_error l i with
  | Some p => VPrim p
  | None => VUndefined
  end.

(** The shapes of section 3's invariant. *)
Definition is_array (v : JsValue) : Prop := exists l, v = VArr l.
Definition is_scalar_or_null (v : JsValue) : Prop :=
  v = VNull \/ exists p, v = VPrim p.

(* ================================================================== *)
(** * Value adapter *)

(** [hookValue] (lines 172-179 and 534-541):
<<
    if (multiple) {
        if (Array.isArray(value)) return value;
        if (value == null) return [];
        return [value];
    }
    return Array.isArray(value) ? (value[0] ?? null) : value;
>> *)
Definition hookValue (multiple : bool) (value : JsValue) : JsValue :=
  if multiple then
    match value with
    | VArr l => VArr l
    | VUndefined | VNull => VArr []
    | VPrim p => VArr [p]
    end
  else
    match value with
    | VArr l => nullish (array_get l 0) VNull
    | v => v
    end.


(* ================================================================== *)
(** * Equality of primitives *)

(** [a === b] on primitives: strings by content, numbers by IEEE equality
    (so [NaN !== NaN]), never across the two types. *)
Definition prim_strict_eq (a b : Primitive) : bool :=
  match a, b with
  | PStr s, PStr t => String.eqb s t
  | PNum x, PNum y => PrimFloat.eqb x y
  | _, _ => false
  end.

(** SameValueZero, the comparison of [Array.prototype.includes]: as [===]
    except that [NaN] is found. *)
Definition same_value_zero (a b : Primitive) : bool :=
  match a, b with
  | PNum x, PNum y => PrimFloat.eqb x y || (PrimFloat.is_nan x && PrimFloat.is_nan y)
  | _, _ => prim_strict_eq a b
  end.

Definition includes (l : list Primitive) (x : Primitive) : bool :=
  existsb (fun y => same_value_zero y x) l.

(** [uaValue === opt], with [opt] a primitive. *)
Definition strict_eq_prim (v : JsValue) (opt : Primitive) : bool :=
  match v with
  | VPrim p => prim_strict_eq p opt
  | _ => false
  end.

(* ================================================================== *)
(** * Caller-supplied functions *)

(** A call either completes with a value or throws. *)
Inductive Completion (A : Type) : Type :=
| Normal (a : A)
| Throw (e : string).
Arguments Normal {A} a.
Arguments Throw {A} e.

Definition cbind {A B} (c : Completion A) (k : A -> Completion B) : Completion B :=
  match c with
  | Normal a => k a
  | Throw e => Throw e
  end.

(** [xs.map(f)]: left to right, the first throw ends the loop. *)
Fixpoint map_completion {A B} (f : nat -> A -> Completion B) (i : nat) (xs : list A)
  : Completion (list B) :=
  match xs with
  | [] => Normal []
  | x :: rest =>
      cbind (f i x) (fun y =>
      cbind (map_completion f (S i) rest) (fun ys => Normal (y :: ys)))
  end.

Definition FilterOptions := list Primitive -> string -> Completion (list Primitive).
Definition GetOptionDisabled := Primitive -> Completion bool.
Definition GroupBy := Primitive -> Completion (option string).

(* ================================================================== *)
(** * Props and component state *)

(** [AutocompleteProps] after the destructuring defaults of lines 51-86 and
    410-448 ([multiple = false], [clearable = true], ...).  An [option] is a
    prop that may be [undefined]. *)
Record Props : Type := {
  value : JsValue;
  disabled : bool;
  options : list Primitive;
  multiple : bool;
  freeSolo : bool;
  openOnFocus : bool;
  clearable : bool;
  selectOnFocus : option bool;
  clearOnBlur : option bool;
  handleHomeEndKeys : option bool;
  filterOptions : option FilterOptions;
  getOptionDisabled : option GetOptionDisabled;
  groupBy : option GroupBy;
  placeholder : string;
  label : option string;
  helperText : option string;
  autoFocus : bool;
  readOnly : bool;
  listboxMaxHeight : number;
  listboxWidth : option number
}.

(** The two [useState] cells both revisions have: [open] and [input]. *)
Record State : Type := {
  open : bool;
  input : string
}.

(* ================================================================== *)
(** * The host and the event bridge *)

(** What an event carries: [{ value: v }] or [{ input: s }]. *)
Inductive Payload : Type :=
| ValuePayload (v : JsValue)
| InputPayload (s : string).

(** The calls the component makes on the host, in the order made. *)
Inductive HostCall : Type :=
| SetValue (v : JsValue)
| RaiseEvent (name : string) (payload : Payload).

(** A callback runs against the component's next state and the host. *)
Record World : Type := {
  st : State;
  host_log : list HostCall
}.

Definition Handler (A : Type) : Type := World -> A * World.

Definition ret {A} (a : A) : Handler A := fun w => (a, w).

Definition bind {A B} (m : Handler A) (k : A -> Handler B) : Handler B :=
  fun w => let (a, w') := m w in k a w'.

Notation "m ;; k" := (bind m (fun _ => k))
  (at level 61, right associativity).

Definition exec {A} (m : Handler A) (w : World) : World := snd (m w).

Definition call_host (c : HostCall) : Handler unit :=
  fun w => (tt, {| st := st w; host_log := host_log w ++ [c] |}).

(** The host's setter, [props.setValue]. *)
Definition setValue (v : JsValue) : Handler unit := call_host (SetValue v).

(** The host's [props.raiseEvent], a required member of [FormElementProps]. *)
Definition raiseEvent (name : string) (payload : Payload) : Handler unit :=
  call_host (RaiseEvent name payload).

(** [emit] (lines 167-169, 529-531): [raiseEvent?.(name, payload)]. *)
Definition emit (name : string) (payload : Payload) : Handler unit :=
  raiseEvent name payload.

Definition setOpen (b : bool) : Handler unit :=
  fun w => (tt, {| st := {| open := b; input := input (st w) |};
                   host_log := host_log w |}).

Definition setInput (s : string) : Handler unit :=
  fun w => (tt, {| st := {| open := open (st w); input := s |};
                   host_log := host_log w |}).

(** [onChange] (lines 206-212, 590-595):
<<
    const out = multiple ? newVal : (newVal ?? null);
    setValue(out); emit("change", { value: out }); setInput("");
>> *)
Definition onChange (multiple : bool) (newVal : JsValue) : Handler unit :=
  let out := if multiple then newVal else nullish newVal VNull in
  setValue out ;;
  emit "change" (ValuePayload out) ;;
  setInput "".

(** [onInputChange] (lines 213-216, 596-599). *)
Definition onInputChange (newInput : string) : Handler unit :=
  setInput newInput ;;
  emit "input" (ValuePayload (VPrim (PStr newInput))).

(** [onOpen] and [onClose] (lines 218-225, 601-602); [input] is the text of the
    render that created the callback. *)
Definition onOpen (input : string) : Handler unit :=
  setOpen true ;; emit "open" (InputPayload input).

Definition onClose (input : string) : Handler unit :=
  setOpen false ;; emit "close" (InputPayload input).

(** [onClickInput] (lines 230-232, 611-613). *)
Definition onClickInput (p : Props) : Handler unit :=
  if negb (disabled p) && negb (readOnly p) then setOpen true else ret tt.

(** [const cleared = multiple ? [] : null] *)
Definition cleared (multiple : bool) : JsValue :=
  if multiple then VArr [] else VNull.

(** The clear button's [onClick] (lines 290-296, 679-685). *)
Definition clear_onClick (multiple : bool) : Handler unit :=
  setValue (cleared multiple) ;;
  setInput "" ;;
  emit "clear" (ValuePayload (cleared multiple)) ;;
  emit "change" (ValuePayload (cleared multiple)).

(** The payloads of the events named [name], oldest first. *)
Fixpoint events_named (name : string) (log : list HostCall) : list Payload :=
  match log with
  | [] => []
  | RaiseEvent n pl :: rest =>
      if String.eqb n name then pl :: events_named name rest
      else events_named name rest
  | SetValue _ :: rest => events_named name rest
  end.

(** The values handed to the host's setter, oldest first. *)
Fixpoint setter_calls (log : list HostCall) : list JsValue :=
  match log with
  | [] => []
  | SetValue v :: rest => v :: setter_calls rest
  | RaiseEvent _ _ :: rest => setter_calls rest
  end.

(** The names of the events raised, oldest first. *)
Fixpoint event_names (log : list HostCall) : list string :=
  match log with
  | [] => []
  | RaiseEvent n _ :: rest => n :: event_names rest
  | SetValue _ :: rest => event_names rest
  end.

(* ================================================================== *)
(** * What the component hands to the interaction engine *)

(** The object literal passed to [useAutocomplete] (lines 197-228, 581-609).
    A key the literal does not have is [None]. *)
Record HookConfig : Type := {
  cfg_multiple : bool;
  cfg_freeSolo : bool;
  cfg_options : list Primitive;
  cfg_filterOptions : option FilterOptions;
  cfg_groupBy : option GroupBy;
  cfg_getOptionDisabled : option GetOptionDisabled;
  cfg_value : JsValue;
  cfg_inputValue : string;
  cfg_onChange : JsValue -> Handler unit;
  cfg_onInputChange : string -> Handler unit;
  cfg_open : bool;
  cfg_onOpen : Handler unit;
  cfg_onClose : Handler unit;
  cfg_disabled : bool;
  cfg_readOnly : bool;
  cfg_selectOnFocus : option bool;
  cfg_clearOnBlur : option bool;
  cfg_handleHomeEndKeys : option bool
}.

(** The keys both revisions pass; the three keyboard flags are the second
    revision's.  Neither literal has a [getOptionDisabled] key. *)
Definition hook_config_of (p : Props) (s : State)
    (sof cob hhe : option bool) : HookConfig :=
  {| cfg_multiple := multiple p;
     cfg_freeSolo := freeSolo p;
     cfg_options := options p;
     cfg_filterOptions := filterOptions p;
     cfg_groupBy := groupBy p;
     cfg_getOptionDisabled := None;
     cfg_value := hookValue (multiple p) (value p);
     cfg_inputValue := input s;
     cfg_onChange := onChange (multiple p);
     cfg_onInputChange := onInputChange;
     cfg_open := open s;
     cfg_onOpen := onOpen (input s);
     cfg_onClose := onClose (input s);
     cfg_disabled := disabled p;
     cfg_readOnly := readOnly p;
     cfg_selectOnFocus := sof;
     cfg_clearOnBlur := cob;
     cfg_handleHomeEndKeys := hhe |}.

(** The props the engine returns for one option row; the component spreads
    them onto the [<li>] and overrides some. *)
Record OptionProps : Type := {
  op_onClick : Handler unit;
  op_aria_disabled : bool;
  op_aria_selected : bool
}.

(** What [useAutocomplete] returns, as far as the component reads it. *)
Record HookResult : Type := {
  groupedOptions : list Primitive;
  uaValue : JsValue;
  focused : bool;
  getOptionProps : Primitive -> nat -> OptionProps;
  tag_onDelete : nat -> Handler unit
}.

(* ================================================================== *)
(** * The interaction engine's selection commit *)

(** The selection-interaction engine is the external [useAutocomplete] hook,
    which this repository consumes and does not contain; what it does with the
    configuration is taken from section 4.2 of the specification. *)

(** Modelled from the spec: whether the engine holds an option disabled, "per a
    caller-supplied predicate", the one in its configuration. *)
Definition engine_option_disabled (cfg : HookConfig) (opt : Primitive)
  : Completion bool :=
  match cfg_getOptionDisabled cfg with
  | Some f => f opt
  | None => Normal false
  end.

(** Modelled from the spec: the engine's single-select commit.  The picked
    option goes to the configured [onChange], and the transition "Open ->
    Closed on selection commit (single-select)" is made through the configured
    [onClose]. *)
Definition engine_select_single (cfg : HookConfig) (opt : Primitive)
  : Handler unit :=
  cfg_onChange cfg (VPrim opt) ;;
  (if cfg_open cfg then cfg_onClose cfg else ret tt).

(** Modelled from the spec: the click handler the engine puts on an option
    row.  Disabled options "are not selectable"; any other option is committed. *)
Definition engine_option_onClick (cfg : HookConfig) (opt : Primitive)
  : Handler unit :=
  match engine_option_disabled cfg opt with
  | Normal false => engine_select_single cfg opt
  | Normal true => ret tt
  | Throw _ => ret tt
  end.

(* ================================================================== *)
(** * Strings as JavaScript sees them *)

(** A [string] holds the UTF-8 bytes of the JavaScript string.  What
    [String.prototype.trim] removes is the white space and line terminators of
    ECMAScript: U+0009 to U+000D, U+0020, U+00A0, U+1680, U+2000 to U+200A,
    U+2028, U+2029, U+202F, U+205F, U+3000 and U+FEFF. *)

(** The one-byte ones: tab, line feed, vertical tab, form feed, carriage
    return and space. *)
Definition is_js_space (c : ascii) : bool :=
  let n := nat_of_ascii c in
  (Nat.leb 9 n && Nat.leb n 13) || Nat.eqb n 32.

(** U+00A0 is the bytes C2 A0. *)
Definition is_js_space2 (x y : nat) : bool :=
  Nat.eqb x 194 && Nat.eqb y 160.

(** The three-byte ones: U+1680 (E1 9A 80), U+2000 to U+200A (E2 80 80 to
    E2 80 8A), U+2028 and U+2029 (E2 80 A8, E2 80 A9), U+202F (E2 80 AF),
    U+205F (E2 81 9F), U+3000 (E3 80 80) and U+FEFF (EF BB BF). *)
Definition is_js_space3 (x y z : nat) : bool :=
  (Nat.eqb x 225 && Nat.eqb y 154 && Nat.eqb z 128) ||
  (Nat.eqb x 226 && Nat.eqb y 128 &&
     ((Nat.leb 128 z && Nat.leb z 138) || Nat.eqb z 168 || Nat.eqb z 169 ||
      Nat.eqb z 175)) ||
  (Nat.eqb x 226 && Nat.eqb y 129 && Nat.eqb z 159) ||
  (Nat.eqb x 227 && Nat.eqb y 128 && Nat.eqb z 128) ||
  (Nat.eqb x 239 && Nat.eqb y 187 && Nat.eqb z 191).

(** The number of bytes of the white space character [s] starts with, or 0
    when it starts with none. *)
Definition space_width (s : string) : nat :=
  match s with
  | EmptyString => 0
  | String a r1 =>
      if is_js_space a then 1
      else match r1 with
           | EmptyString => 0
           | String b r2 =>
               if is_js_space2 (nat_of_ascii a) (nat_of_ascii b) then 2
               else match r2 with
                    | EmptyString => 0
                    | String c _ =>
                        if is_js_space3 (nat_of_ascii a) (nat_of_ascii b)
                                        (nat_of_ascii c)
                        then 3 else 0
                    end
           end
  end.

Fixpoint trim_start (s : string) : string :=
  match s with
  | EmptyString => EmptyString
  | String a r1 =>
      match space_width s with
      | 0 => s
      | 1 => trim_start r1
      | 2 => match r1 with
             | String _ r2 => trim_start r2
             | EmptyString => s
             end
      | _ => match r1 with
             | String _ (String _ r3) => trim_start r3
             | _ => s
             end
      end
  end.

(** Drops the trailing run of white space: a character stays when it is not
    white space or when something stays after it. *)
Fixpoint trim_end (s : string) : string :=
  match s with
  | EmptyString => EmptyString
  | String a r1 =>
      match space_width s with
      | 0 => String a (trim_end r1)
      | 1 => match trim_end r1 with
             | EmptyString => EmptyString
             | kept => String a kept
             end
      | 2 => match r1 with
             | String b r2 =>
                 match trim_end r2 with
                 | EmptyString => EmptyString
                 | kept => String a (String b kept)
                 end
             | EmptyString => s
             end
      | _ => match r1 with
             | String b (String c r3) =>
                 match trim_end r3 with
                 | EmptyString => EmptyString
                 | kept => String a (String b (String c kept))
                 end
             | _ => s
             end
      end
  end.

(** [s.trim()]. *)
Definition trim (s : string) : string := trim_end (trim_start s).

(** A string is truthy when it is not empty. *)
Definition truthy_string (s : string) : bool := negb (String.eqb s "").

(** [a || b] where each side is a string or [undefined]. *)
Definition or_else (a b : option string) : option string :=
  match a with
  | Some s => if truthy_string s then a else b
  | None => b
  end.

(** [s.trim() !== ""]. *)
Definition not_blank (s : string) : bool := negb (String.eqb (trim s) "").

(* ================================================================== *)
(** * The engine's part of a render *)

(** [getOptionLabel: (o) => String(o)] (lines 201, 585).  The decimal
    rendering of a number, [String(n)], is taken as [number_label]. *)
Definition getOptionLabel (number_label : number -> string) (o : Primitive)
  : string :=
  match o with
  | PStr t => t
  | PNum n => number_label n
  end.

(** Lower case of the ASCII letters. *)
Definition lower_ascii (c : ascii) : ascii :=
  let n := nat_of_ascii c in
  if Nat.leb 65 n && Nat.leb n 90 then ascii_of_nat (n + 32) else c.

Fixpoint lower (s : string) : string :=
  match s with
  | EmptyString => EmptyString
  | String c rest => String (lower_ascii c) (lower rest)
  end.

(** Whether [needle] occurs in [hay]. *)
Fixpoint contains (needle hay : string) : bool :=
  String.prefix needle hay ||
  match hay with
  | EmptyString => false
  | String _ rest => contains needle rest
  end.

(** Modelled from the spec: the engine's default filter, a "case-insensitive
    substring match" of the input text in the option's label (the external
    [useAutocomplete] hook is not in this repository).  The empty text keeps
    every option. *)
Definition default_filter (number_label : number -> string) (text : string)
    (opts : list Primitive) : list Primitive :=
  filter (fun o => contains (lower text)
                            (lower (getOptionLabel number_label o))) opts.

(** Modelled from the spec: the options the engine shows, "filtering Options
    against InputText (default: case-insensitive substring match, overridable
    by a caller-supplied filter function)"; the caller's function is "invoked
    as given". *)
Definition engine_filtered (number_label : number -> string) (cfg : HookConfig)
  : Completion (list Primitive) :=
  match cfg_filterOptions cfg with
  | Some f => f (cfg_options cfg) (cfg_inputValue cfg)
  | None => Normal (default_filter number_label (cfg_inputValue cfg)
                                   (cfg_options cfg))
  end.

(** Modelled from the spec: the calls the engine makes on the caller's
    functions during a render: the filter, then [groupBy] on each option it
    shows, "invoked as given", the first throw ending the call of the hook. *)
Definition engine_invocations (number_label : number -> string)
    (cfg : HookConfig) : Completion (list Primitive) :=
  cbind (engine_filtered number_label cfg) (fun shown =>
  cbind (match cfg_groupBy cfg with
         | Some g => map_completion (fun _ o => g o) 0 shown
         | None => Normal []
         end) (fun _ =>
  Normal shown)).

(** The list without its element at [index]. *)
Fixpoint remove_at (index : nat) (l : list Primitive) : list Primitive :=
  match l, index with
  | [], _ => []
  | _ :: rest, 0 => rest
  | x :: rest, S i => x :: remove_at i rest
  end.

(** Modelled from the spec: what the hook returns for a configuration.  It
    shows the filtered options, reports the value it was given, puts its click
    handler on each option row, and a chip's delete handler commits the
    selection without the item at that index ("removing the Bridge chip yields
    [Road]").  Whether the input has the focus is the hook's own state,
    [focused]. *)
Definition useAutocomplete_spec (number_label : number -> string)
    (focused : bool) (cfg : HookConfig) : Completion HookResult :=
  cbind (engine_invocations number_label cfg) (fun shown =>
  Normal {| groupedOptions := shown;
            uaValue := cfg_value cfg;
            focused := focused;
            getOptionProps := fun opt _ =>
              {| op_onClick := engine_option_onClick cfg opt;
                 op_aria_disabled :=
                   match engine_option_disabled cfg opt with
                   | Normal b => b
                   | Throw _ => false
                   end;
                 op_aria_selected :=
                   match cfg_value cfg with
                   | VArr l => includes l opt
                   | v => strict_eq_prim v opt
                   end |};
            tag_onDelete := fun index =>
              match cfg_value cfg with
              | VArr l => cfg_onChange cfg (VArr (remove_at index l))
              | _ => ret tt
              end |}).

(** The predicate [f] throws [e] on one of the options the hook result shows,
    not having thrown on an earlier one. *)
Definition throws_first_on (f : GetOptionDisabled) (h : HookResult) (e : string)
  : Prop :=
  exists pre opt post,
    groupedOptions h = pre ++ opt :: post /\
    (forall o, In o pre -> exists b, f o = Normal b) /\
    f opt = Throw e.


(* ================================================================== *)
(** * The rendered output *)

(** One chip of the input wrapper: the option it shows and, when rendered, the
    handler of its removal button. *)
Record Chip : Type := {
  chip_option : Primitive;
  chip_remove : option (Handler unit)
}.

Inductive RowBackground : Type :=
| BgHover
| BgSelected
| BgNone.

(** One [<li>] of the listbox after the engine's props are spread and the
    component's own attributes are applied. *)
Record Row : Type := {
  row_option : Primitive;
  row_onClick : Handler unit;
  row_disabled_style : bool;
  row_aria_disabled : bool;
  row_aria_selected : bool;
  row_checked : bool;
  row_background : RowBackground
}.

Definition readOnlyOrDisabled (p : Props) : bool := disabled p || readOnly p.

(** [label && <div>...</div>]: nothing for [undefined] and for the empty
    string. *)
Definition render_text (t : option string) : option string :=
  match t with
  | Some s => if truthy_string s then Some s else None
  | None => None
  end.

Fixpoint render_chips_from (rod : bool) (h : HookResult) (i : nat)
    (l : list Primitive) : list Chip :=
  match l with
  | [] => []
  | opt :: rest =>
      {| chip_option := opt;
         chip_remove := if negb rod then Some (tag_onDelete h i) else None |}
      :: render_chips_from rod h (S i) rest
  end.

(** The chips (lines 243-262, 632-651):
    [multiple && Array.isArray(uaValue) && uaValue.length > 0 && uaValue.map(...)]. *)
Definition render_chips (p : Props) (h : HookResult) : list Chip :=
  if multiple p then
    match uaValue h with
    | VArr l => render_chips_from (readOnlyOrDisabled p) h 0 l
    | _ => []
    end
  else [].

(** The clear button (lines 285-301, 674-690):
    [clearable && !readOnlyOrDisabled && <button onClick=...>]. *)
Definition render_clear (p : Props) : option (Handler unit) :=
  if clearable p && negb (readOnlyOrDisabled p)
  then Some (clear_onClick (multiple p))
  else None.

(** [getOptionDisabled?.(opt) ?? false] (lines 308, 704). *)
Definition disabledOpt (p : Props) (opt : Primitive) : Completion bool :=
  match getOptionDisabled p with
  | Some f => f opt
  | None => Normal false
  end.

(** [selected] (lines 309-311, 705-707). *)
Definition selected (p : Props) (h : HookResult) (opt : Primitive) : bool :=
  if multiple p then
    match uaValue h with
    | VArr l => includes l opt
    | _ => false
    end
  else strict_eq_prim (uaValue h) opt.

(** The input wrapper of both revisions: chips, the text input and the clear
    button. *)
Record Wrapper : Type := {
  wrap_focused : bool;
  wrap_chips : list Chip;
  input_value : string;
  input_disabled : bool;
  input_placeholder : string;
  input_autoFocus : bool;
  clear_button : option (Handler unit)
}.

Definition render_wrapper (p : Props) (s : State) (h : HookResult) : Wrapper :=
  {| wrap_focused := focused h;
     wrap_chips := render_chips p h;
     input_value := input s;
     input_disabled := readOnlyOrDisabled p;
     input_placeholder := placeholder p;
     input_autoFocus := autoFocus p;
     clear_button := render_clear p |}.

Record Listbox : Type := {
  lb_width : option number;
  lb_maxHeight : number;
  lb_rows : list Row
}.

(* ================================================================== *)
(** * First revision: the listbox rendered in place (lines 1-353) *)

Module Inline.

Definition hook_config (p : Props) (s : State) : HookConfig :=
  hook_config_of p s None None None.

(** One option row (lines 306-322). *)
Definition render_row (p : Props) (h : HookResult) (index : nat)
    (opt : Primitive) : Completion Row :=
  let optionProps := getOptionProps h opt index in
  cbind (disabledOpt p opt) (fun d =>
  Normal {| row_option := opt;
            row_onClick := op_onClick optionProps;
            row_disabled_style := d;
            row_aria_disabled := d;
            row_aria_selected := op_aria_selected optionProps;
            row_checked := selected p h opt;
            row_background := BgNone |}).

(** [open && groupedOptions.length > 0 && <ul style={styles.listbox}>], with
    [styles.listbox.width = listboxWidth] (lines 128-145, 304-325). *)
Definition render_listbox (p : Props) (s : State) (h : HookResult)
  : Completion (option Listbox) :=
  if open s && Nat.ltb 0 (List.length (groupedOptions h)) then
    cbind (map_completion (render_row p h) 0 (groupedOptions h)) (fun rows =>
    Normal (Some {| lb_width := listboxWidth p;
                    lb_maxHeight := listboxMaxHeight p;
                    lb_rows := rows |}))
  else Normal None.

Record View : Type := {
  root_aria_disabled : bool;
  view_label : option string;
  view_wrapper : Wrapper;
  view_listbox : option Listbox;
  view_helper : option string
}.

Definition view (p : Props) (s : State) (h : HookResult)
    (lb : option Listbox) : View :=
  {| root_aria_disabled := readOnlyOrDisabled p;
     view_label := render_text (label p);
     view_wrapper := render_wrapper p s h;
     view_listbox := lb;
     view_helper := render_text (helperText p) |}.

(** The component function's return value (lines 238-329). *)
Definition render (p : Props) (s : State) (h : HookResult) : Completion View :=
  cbind (render_listbox p s h) (fun lb => Normal (view p s h lb)).

(** The component function (lines 50-330): the hook is called with the
    configuration and its result is rendered; nothing is caught on the way. *)
Definition component (useAutocomplete : HookConfig -> Completion HookResult)
    (p : Props) (s : State) : Completion View :=
  cbind (useAutocomplete (hook_config p s)) (fun h => render p s h).

End Inline.

(* ================================================================== *)
(** * Second revision: the listbox in a Popper portal (lines 354-761) *)

Module Portal.

#[local] Unset Elimination Schemes.
(** A DOM element, as far as the component looks at it: its tag, its
    [clientWidth], its computed style read through [getPropertyValue] (the
    empty string for a property with no value) and its [parentElement].  The
    computed style is whatever the browser reports for the element, inherited
    values included. *)
Inductive HTMLElement : Type :=
| Element (tag : string) (width : number)
          (computed : string -> string) (parent : option HTMLElement).
#[local] Set Elimination Schemes.

Definition tagName (el : HTMLElement) : string :=
  match el with Element t _ _ _ => t end.
Definition clientWidth (el : HTMLElement) : number :=
  match el with Element _ w _ _ => w end.
Definition getPropertyValue (el : HTMLElement) (name : string) : string :=
  match el with Element _ _ c _ => c name end.
Definition parentElement (el : HTMLElement) : option HTMLElement :=
  match el with Element _ _ _ parent => parent end.

(** [el.ownerDocument]: its [body], and whether it has a [defaultView]. *)
Record Document : Type := {
  body : HTMLElement;
  defaultView : bool
}.

(** The [useState] cells the second revision adds. *)
Record PortalState : Type := {
  hoveredIndex : option nat;
  anchorEl : option HTMLElement;
  portalContainer : option HTMLElement
}.

Definition ui_foreground : string := "--calcite-ui-foreground-1".
Definition color_foreground : string := "--calcite-color-foreground-1".

(** [cs?.getPropertyValue(name)] with [cs = doc.defaultView?.getComputedStyle(el)]. *)
Definition computed_value (doc : Document) (el : HTMLElement) (name : string)
  : option string :=
  if defaultView doc then Some (getPropertyValue el name) else None.

(** [fg] of line 564. *)
Definition fg (doc : Document) (el : HTMLElement) : option string :=
  or_else (computed_value doc el ui_foreground)
          (computed_value doc el color_foreground).

(** The test of line 565: [fg && fg.trim() !== ""]. *)
Definition defines_theme (doc : Document) (el : HTMLElement) : bool :=
  match fg doc el with
  | Some v => truthy_string v && negb (String.eqb (trim v) "")
  | None => false
  end.

(** The loop of lines 562-567, from [el] upward. *)
Fixpoint find_themed (doc : Document) (el : HTMLElement) {struct el}
  : option HTMLElement :=
  match el with
  | Element _ _ _ parent =>
      if defines_theme doc el then Some el
      else match parent with
           | Some up => find_themed doc up
           | None => None
           end
  end.

(** The effect of lines 556-569: the next [portalContainer], given the
    anchor's document. *)
Definition portal_container_effect (doc : Document)
    (anchor prev : option HTMLElement) : option HTMLElement :=
  match anchor with
  | None => prev
  | Some a =>
      Some (match find_themed doc a with
            | Some found => found
            | None => body doc
            end)
  end.

(** [el] and its ancestors, nearest first. *)
Fixpoint ancestors (el : HTMLElement) : list HTMLElement :=
  match el with
  | Element _ _ _ parent =>
      el :: match parent with
            | Some up => ancestors up
            | None => []
            end
  end.

(** [computedListboxWidth] (line 619): [listboxWidth ?? anchorEl?.clientWidth]. *)
Definition computedListboxWidth (p : Props) (ps : PortalState) : option number :=
  match listboxWidth p with
  | Some w => Some w
  | None => option_map clientWidth (anchorEl ps)
  end.

Definition hook_config (p : Props) (s : State) : HookConfig :=
  hook_config_of p s (selectOnFocus p) (clearOnBlur p) (handleHomeEndKeys p).

Definition nat_opt_eqb (a : option nat) (i : nat) : bool :=
  match a with
  | Some n => Nat.eqb n i
  | None => false
  end.

(** One option row (lines 702-730). *)
Definition render_row (p : Props) (ps : PortalState) (h : HookResult)
    (index : nat) (opt : Primitive) : Completion Row :=
  let optionProps := getOptionProps h opt index in
  cbind (disabledOpt p opt) (fun d =>
  let sel := selected p h opt in
  Normal {| row_option := opt;
            row_onClick := op_onClick optionProps;
            row_disabled_style := d;
            row_aria_disabled := d;
            row_aria_selected := sel;
            row_checked := sel;
            row_background :=
              if nat_opt_eqb (hoveredIndex ps) index then BgHover
              else if sel then BgSelected else BgNone |}).

(** [<Popper open=... anchorEl=... container=...><ul ...>rows</ul></Popper>]
    (lines 693-733); the rows are built on every render. *)
Record Popper : Type := {
  popper_open : bool;
  popper_anchorEl : option HTMLElement;
  popper_container : option HTMLElement;
  popper_listbox : Listbox
}.

Record View : Type := {
  root_aria_disabled : bool;
  view_label : option string;
  view_wrapper : Wrapper;
  view_popper : Popper;
  view_helper : option string
}.

Definition view (p : Props) (s : State) (ps : PortalState) (h : HookResult)
    (rows : list Row) : View :=
  {| root_aria_disabled := readOnlyOrDisabled p;
     view_label := render_text (label p);
     view_wrapper := render_wrapper p s h;
     view_popper :=
       {| popper_open := open s && Nat.ltb 0 (List.length (groupedOptions h));
          popper_anchorEl := anchorEl ps;
          popper_container := portalContainer ps;
          popper_listbox :=
            {| lb_width := computedListboxWidth p ps;
               lb_maxHeight := listboxMaxHeight p;
               lb_rows := rows |} |};
     view_helper := render_text (helperText p) |}.

(** The component function's return value (lines 621-737). *)
Definition render (p : Props) (s : State) (ps : PortalState) (h : HookResult)
  : Completion View :=
  cbind (map_completion (render_row p ps h) 0 (groupedOptions h)) (fun rows =>
  Normal (view p s ps h rows)).

(** The row at [index] of a render's listbox, and what clicking it runs. *)
Definition row_at (v : Completion View) (index : nat) : option Row :=
  match v with
  | Normal out => nth_error (lb_rows (popper_listbox (view_popper out))) index
  | Throw _ => None
  end.

Definition click_row (v : Completion View) (index : nat) : Handler unit :=
  match row_at v index with
  | Some r => row_onClick r
  | None => ret tt
  end.

Definition unmounted : PortalState :=
  {| hoveredIndex := None; anchorEl := None; portalContainer := None |}.

(** Section 4.3 in the specification's words, to compare with
    [defines_theme]: the element's computed style defines a theming custom
    property, under one of the two names, with a value that is not blank. *)
Definition spec_defines_theme (el : HTMLElement) : bool :=
  not_blank (getPropertyValue el ui_foreground) ||
  not_blank (getPropertyValue el color_foreground).

Definition no_style : string -> string := fun _ => "".

Definition color_only_style : string -> string :=
  fun name => if String.eqb name color_foreground then "#ffffff" else "".

Definition blank_ui_style : string -> string :=
  fun name =>
    if String.eqb name ui_foreground then " "
    else if String.eqb name color_foreground then "#ffffff"
    else "".

Definition demo_html : HTMLElement := Element "html" 1280%float no_style None.
Definition demo_body : HTMLElement :=
  Element "body" 1280%float no_style (Some demo_html).
Definition demo_form : HTMLElement :=
  Element "form" 480%float no_style (Some demo_body).
Definition demo_section : HTMLElement :=
  Element "section" 480%float color_only_style (Some demo_body).

Definition blank_ui_anchor : HTMLElement :=
  Element "div" 240%float blank_ui_style (Some demo_form).
Definition color_only_anchor : HTMLElement :=
  Element "div" 240%float color_only_style (Some demo_form).
Definition plain_anchor : HTMLElement :=
  Element "div" 240%float no_style
    (Some (Element "form" 480%float no_style (Some demo_section))).

Definition demo_document : Document :=
  {| body := demo_body; defaultView := true |}.

(** The ref callback of the input wrapper (lines 626-629), as far as the
    component's own state goes: [setAnchorElLocal(el)]. *)
Definition set_anchor (el : option HTMLElement) (ps : PortalState) : PortalState :=
  {| hoveredIndex := hoveredIndex ps;
     anchorEl := el;
     portalContainer := portalContainer ps |}.

(** One run of the effect of lines 556-569 on the state: it returns before
    [setPortalContainer] when there is no anchor. *)
Definition run_portal_effect (doc : Document) (ps : PortalState) : PortalState :=
  {| hoveredIndex := hoveredIndex ps;
     anchorEl := anchorEl ps;
     portalContainer :=
       portal_container_effect doc (anchorEl ps) (portalContainer ps) |}.

(** The component's part of a row's [onMouseEnter] (line 712):
    [setHoveredIndex(index)]. *)
Definition row_onMouseEnter (index : nat) (ps : PortalState) : PortalState :=
  {| hoveredIndex := Some index;
     anchorEl := anchorEl ps;
     portalContainer := portalContainer ps |}.

(** The component's part of a row's [onMouseLeave] (line 713):
    [setHoveredIndex((prev) => (prev === index ? null : prev))]. *)
Definition row_onMouseLeave (index : nat) (ps : PortalState) : PortalState :=
  {| hoveredIndex :=
       if nat_opt_eqb (hoveredIndex ps) index then None else hoveredIndex ps;
     anchorEl := anchorEl ps;
     portalContainer := portalContainer ps |}.

(** The rows of a render's listbox. *)
Definition rows_of (v : View) : list Row :=
  lb_rows (popper_listbox (view_popper v)).

(** The component function (lines 409-738): the hook is called with the
    configuration and its result is rendered; nothing is caught on the way. *)
Definition component (useAutocomplete : HookConfig -> Completion HookResult)
    (p : Props) (s : State) (ps : PortalState) : Completion View :=
  cbind (useAutocomplete (hook_config p s)) (fun h => render p s ps h).

End Portal.

(* ================================================================== *)
(** * The text input's handlers *)

(** What [getInputProps()] returns, as far as the component calls it; each
    handler may be absent ([inputProps.onChange?.(e)]).  The engine's
    [onChange] sees the event, whose [target.value] is the typed text. *)
Record InputProps : Type := {
  ip_onChange : option (string -> Handler unit);
  ip_onFocus : option (Handler unit);
  ip_onClick : option (Handler unit)
}.

Definition call_opt (h : option (Handler unit)) : Handler unit :=
  match h with
  | Some f => f
  | None => ret tt
  end.

(** The input's [onChange] (lines 271-274, 660-663):
    [inputProps.onChange?.(e); setInput(e.target.value)]. *)
Definition input_onChange (ip : InputProps) (typed : string) : Handler unit :=
  call_opt (option_map (fun f => f typed) (ip_onChange ip)) ;;
  setInput typed.

(** [if (openOnFocus && !open) setOpen(true)], with the render's [open]. *)
Definition open_on_focus (p : Props) (s : State) : Handler unit :=
  if openOnFocus p && negb (open s) then setOpen true else ret tt.

(** The input's [onFocus] (lines 275-278, 664-667). *)
Definition input_onFocus (p : Props) (s : State) (ip : InputProps) : Handler unit :=
  call_opt (ip_onFocus ip) ;; open_on_focus p s.

(** The input's [onClick] (lines 279-282, 668-671). *)
Definition input_onClick (p : Props) (ip : InputProps) : Handler unit :=
  call_opt (ip_onClick ip) ;; onClickInput p.

(* ================================================================== *)
(** * Sequences of callbacks *)

(** Every way the component writes its state or calls the host: the four
    callbacks it configures the engine with, the clear button, and its own
    parts of the input's click, change and focus handlers. *)
Inductive Action : Type :=
| Commit (newVal : JsValue)
| InputChange (newInput : string)
| RequestOpen
| RequestClose
| ClickClear
| ClickInput
| Typed (text : string)
| Focus.

(** The code an action runs, as created by the render of props [p] in state
    [s]; a clear button that is not rendered cannot be clicked. *)
Definition handler_of (p : Props) (s : State) (a : Action) : Handler unit :=
  match a with
  | Commit newVal => onChange (multiple p) newVal
  | InputChange newInput => onInputChange newInput
  | RequestOpen => onOpen (input s)
  | RequestClose => onClose (input s)
  | ClickClear => call_opt (render_clear p)
  | ClickInput => onClickInput p
  | Typed text => setInput text
  | Focus => open_on_focus p s
  end.

(** One event: the callbacks it runs all come from the same render. *)
Fixpoint run_event (p : Props) (s : State) (acts : list Action) : Handler unit :=
  match acts with
  | [] => ret tt
  | a :: rest => handler_of p s a ;; run_event p s rest
  end.

(** A run of events, each with the props of its render; the component is
    rendered again, from the state the event left, before the next one. *)
Fixpoint run_trace (tr : list (Props * list Action)) (w : World) : World :=
  match tr with
  | [] => w
  | (p, acts) :: rest => run_trace rest (exec (run_event p (st w) acts) w)
  end.

(** The host calls one action makes. *)
Definition action_calls (p : Props) (s : State) (a : Action) : list HostCall :=
  match a with
  | Commit newVal =>
      let out := if multiple p then newVal else nullish newVal VNull in
      [SetValue out; RaiseEvent "change" (ValuePayload out)]
  | InputChange newInput =>
      [RaiseEvent "input" (ValuePayload (VPrim (PStr newInput)))]
  | RequestOpen => [RaiseEvent "open" (InputPayload (input s))]
  | RequestClose => [RaiseEvent "close" (InputPayload (input s))]
  | ClickClear =>
      if clearable p && negb (readOnlyOrDisabled p) then
        [SetValue (cleared (multiple p));
         RaiseEvent "clear" (ValuePayload (cleared (multiple p)));
         RaiseEvent "change" (ValuePayload (cleared (multiple p)))]
      else []
  | ClickInput => []
  | Typed _ => []
  | Focus => []
  end.

(** Whether an action hands a value to the host. *)
Definition writes_value (a : Action) : bool :=
  match a with
  | Commit _ | ClickClear => true
  | _ => false
  end.

(** Whether an action can change [open], and whether it can change [input]. *)
Definition touches_open (a : Action) : bool :=
  match a with
  | RequestOpen | RequestClose | ClickInput | Focus => true
  | _ => false
  end.

Definition touches_input (a : Action) : bool :=
  match a with
  | Commit _ | InputChange _ | ClickClear | Typed _ => true
  | _ => false
  end.

(** The five event names the component raises. *)
Definition event_vocabulary : list string :=
  ["input"; "change"; "open"; "close"; "clear"].

(* ================================================================== *)
(** * Sample inputs *)

Definition clear_demo_props : Props :=
  {| value := VArr [PStr "Bridge"; PStr "Road"];
     disabled := false;
     options := [PStr "Bridge"; PStr "Road"; PStr "Tunnel"];
     multiple := true;
     freeSolo := false;
     openOnFocus := false;
     clearable := true;
     selectOnFocus := None;
     clearOnBlur := None;
     handleHomeEndKeys := None;
     filterOptions := None;
     getOptionDisabled := None;
     groupBy := None;
     placeholder := "";
     label := Some "Assets";
     helperText := None;
     autoFocus := false;
     readOnly := false;
     listboxMaxHeight := 220%float;
     listboxWidth := None |}.

Definition single_demo_props : Props :=
  {| value := VNull;
     disabled := false;
     options := [PStr "Bridge"; PStr "Road"; PStr "Tunnel"];
     multiple := false;
     freeSolo := false;
     openOnFocus := false;
     clearable := true;
     selectOnFocus := None;
     clearOnBlur := None;
     handleHomeEndKeys := None;
     filterOptions := None;
     getOptionDisabled := None;
     groupBy := None;
     placeholder := "";
     label := Some "Asset";
     helperText := None;
     autoFocus := false;
     readOnly := false;
     listboxMaxHeight := 220%float;
     listboxWidth := None |}.

(** [getOptionDisabled = (o) => o === "Road"]. *)
Definition road_disabled : GetOptionDisabled :=
  fun o => Normal (prim_strict_eq o (PStr "Road")).

Definition disabled_demo_props : Props :=
  {| value := VNull;
     disabled := false;
     options := [PStr "Bridge"; PStr "Road"];
     multiple := false;
     freeSolo := false;
     openOnFocus := false;
     clearable := true;
     selectOnFocus := None;
     clearOnBlur := None;
     handleHomeEndKeys := None;
     filterOptions := None;
     getOptionDisabled := Some road_disabled;
     groupBy := None;
     placeholder := "";
     label := None;
     helperText := None;
     autoFocus := false;
     readOnly := false;
     listboxMaxHeight := 220%float;
     listboxWidth := None |}.

(** An engine result that shows every option and whose handlers do nothing. *)
Definition idle_engine (p : Props) : HookResult :=
  {| groupedOptions := options p;
     uaValue := hookValue (multiple p) (value p);
     focused := false;
     getOptionProps := fun _ _ =>
       {| op_onClick := ret tt; op_aria_disabled := false; op_aria_selected := false |};
     tag_onDelete := fun _ => ret tt |}.

(** The popup open and nothing typed. *)
Definition open_no_text : World :=
  {| st := {| open := true; input := "" |}; host_log := [] |}.

(** [filterOptions] that throws, and [groupBy] that throws on Road. *)
Definition filter_throws : FilterOptions :=
  fun _ _ => Throw "no filter today".

Definition group_throws : GroupBy :=
  fun o => if prim_strict_eq o (PStr "Road") then Throw "no group for roads"
           else Normal None.

Definition filter_throws_props : Props :=
  {| value := VNull;
     disabled := false;
     options := [PStr "Bridge"; PStr "Road"; PStr "Tunnel"];
     multiple := false;
     freeSolo := false;
     openOnFocus := false;
     clearable := true;
     selectOnFocus := None;
     clearOnBlur := None;
     handleHomeEndKeys := None;
     filterOptions := Some filter_throws;
     getOptionDisabled := None;
     groupBy := None;
     placeholder := "";
     label := None;
     helperText := None;
     autoFocus := false;
     readOnly := false;
     listboxMaxHeight := 220%float;
     listboxWidth := None |}.

Definition group_throws_props : Props :=
  {| value := VNull;
     disabled := false;
     options := [PStr "Bridge"; PStr "Road"; PStr "Tunnel"];
     multiple := false;
     freeSolo := false;
     openOnFocus := false;
     clearable := true;
     selectOnFocus := None;
     clearOnBlur := None;
     handleHomeEndKeys := None;
     filterOptions := None;
     getOptionDisabled := None;
     groupBy := Some group_throws;
     placeholder := "";
     label := None;
     helperText := None;
     autoFocus := false;
     readOnly := false;
     listboxMaxHeight := 220%float;
     listboxWidth := None |}.

(** A stand-in for [String(n)] where no option is a number. *)
Definition no_numbers : number -> string := fun _ => "".

(** [getOptionDisabled] that throws on Road. *)
Definition road_throws : GetOptionDisabled :=
  fun o => if prim_strict_eq o (PStr "Road") then Throw "road is closed"
           else Normal false.

Definition throwing_demo_props : Props :=
  {| value := VNull;
     disabled := false;
     options := [PStr "Bridge"; PStr "Road"; PStr "Tunnel"];
     multiple := false;
     freeSolo := false;
     openOnFocus := false;
     clearable := true;
     selectOnFocus := None;
     clearOnBlur := None;
     handleHomeEndKeys := None;
     filterOptions := None;
     getOptionDisabled := Some road_throws;
     groupBy := None;
     placeholder := "";
     label := None;
     helperText := None;
     autoFocus := false;
     readOnly := false;
     listboxMaxHeight := 220%float;
     listboxWidth := None |}.

Definition readonly_demo_props : Props :=
  {| value := VArr [PStr "Bridge"; PStr "Road"];
     disabled := false;
     options := [PStr "Bridge"; PStr "Road"; PStr "Tunnel"];
     multiple := true;
     freeSolo := false;
     openOnFocus := false;
     clearable := true;
     selectOnFocus := None;
     clearOnBlur := None;
     handleHomeEndKeys := None;
     filterOptions := None;
     getOptionDisabled := None;
     groupBy := None;
     placeholder := "";
     label := None;
     helperText := None;
     autoFocus := false;
     readOnly := true;
     listboxMaxHeight := 220%float;
     listboxWidth := None |}.

(** The props of [clear_demo_props] once the host has stored the cleared
    value. *)
Definition cleared_demo_props : Props :=
  {| value := VArr [];
     disabled := false;
     options := [PStr "Bridge"; PStr "Road"; PStr "Tunnel"];
     multiple := true;
     freeSolo := false;
     openOnFocus := false;
     clearable := true;
     selectOnFocus := None;
     clearOnBlur := None;
     handleHomeEndKeys := None;
     filterOptions := None;
     getOptionDisabled := None;
     groupBy := None;
     placeholder := "";
     label := Some "Assets";
     helperText := None;
     autoFocus := false;
     readOnly := false;
     listboxMaxHeight := 220%float;
     listboxWidth := None |}.

Definition open_with_text : World :=
  {| st := {| open := true; input := "br" |}; host_log := [] |}.

(* ================================================================== *)
(** * Properties of the value adapter *)

Lemma hookValue_multi_is_array (v : JsValue) :
  is_array (hookValue true v).
Proof.
  destruct v as [| | p | l]; cbn; eexists; reflexivity.
Qed.

Lemma hookValue_single_scalar (v : FieldValue) :
  is_scalar_or_null (hookValue false (of_field v)).
Proof.
  destruct v as [| p | [| x l]]; cbn.
  - now left.
  - right; now exists p.
  - now left.
  - right; now exists x.
Qed.

Lemma array_not_scalar (v : JsValue) :
  is_array v -> ~ is_scalar_or_null v.
Proof.
  intros [l ->] [H | [p H]]; discriminate.
Qed.

(** [undefined] is outside [FieldValue]; in single mode the adapter would hand
    it on unchanged, in multi mode it becomes the empty array. *)
Example hookValue_undefined :
  hookValue false VUndefined = VUndefined /\ hookValue true VUndefined = VArr [].
Proof. split; reflexivity. Qed.

Example hookValue_road_single :
  hookValue false (VArr [PStr "Road"; PStr "Bridge"]) = VPrim (PStr "Road").
Proof. reflexivity. Qed.

Example hookValue_road_multi :
  hookValue true (VPrim (PStr "Road")) = VArr [PStr "Road"].
Proof. reflexivity. Qed.

(** C1: for every FieldValue (a primitive, an array of primitives or null) and
    every setting of [multiple], [hookValue] returns an array exactly when
    [multiple] is true and a scalar-or-null exactly when it is false.  In single
    mode an array is narrowed to its first element (to null when it has none)
    and a scalar or null passes through; in multi mode an array passes through,
    a scalar is wrapped in a one-element array and null becomes the empty
    array. *)
Theorem hookValue_shape (multiple : bool) (v : FieldValue) :
  (is_array (hookValue multiple (of_field v)) <-> multiple = true) /\
  (is_scalar_or_null (hookValue multiple (of_field v)) <-> multiple = false) /\
  (forall x l, hookValue false (of_field (FArr (x :: l))) = VPrim x) /\
  hookValue false (of_field (FArr [])) = VNull /\
  (forall x, hookValue false (of_field (FPrim x)) = VPrim x) /\
  hookValue false (of_field FNull) = VNull /\
  (forall l, hookValue true (of_field (FArr l)) = VArr l) /\
  (forall x, hookValue true (of_field (FPrim x)) = VArr [x]) /\
  hookValue true (of_field FNull) = VArr [].
Proof.
  split; [| split; [| repeat split ]].
  - destruct multiple.
    + split; [reflexivity | intros _; apply hookValue_multi_is_array].
    + split; [| discriminate].
      intros H. exfalso.
      exact (array_not_scalar _ H (hookValue_single_scalar v)).
  - destruct multiple.
    + split; [| discriminate].
      intros H. exfalso.
      exact (array_not_scalar _ (hookValue_multi_is_array (of_field v)) H).
    + split; [reflexivity | intros _; apply hookValue_single_scalar].
Qed.

(* ================================================================== *)
(** * Properties of the event bridge *)

Lemma events_named_app (name : string) (l1 l2 : list HostCall) :
  events_named name (l1 ++ l2) = events_named name l1 ++ events_named name l2.
Proof.
  induction l1 as [| c l1 IH]; cbn; [reflexivity |].
  destruct c as [v | n pl]; [exact IH |].
  destruct (String.eqb n name); cbn; now rewrite IH.
Qed.

Lemma setter_calls_app (l1 l2 : list HostCall) :
  setter_calls (l1 ++ l2) = setter_calls l1 ++ setter_calls l2.
Proof.
  induction l1 as [| c l1 IH]; cbn; [reflexivity |].
  destruct c; cbn; now rewrite IH.
Qed.

Lemma event_names_app (l1 l2 : list HostCall) :
  event_names (l1 ++ l2) = event_names l1 ++ event_names l2.
Proof.
  induction l1 as [| c l1 IH]; cbn; [reflexivity |].
  destruct c; cbn; now rewrite IH.
Qed.

(** What each callback does to the state and to the host, in one equation. *)
Lemma exec_onChange (multiple : bool) (newVal : JsValue) (w : World) :
  exec (onChange multiple newVal) w =
  let out := if multiple then newVal else nullish newVal VNull in
  {| st := {| open := open (st w); input := "" |};
     host_log := (host_log w ++ [SetValue out])
                 ++ [RaiseEvent "change" (ValuePayload out)] |}.
Proof. reflexivity. Qed.

Lemma exec_onClose (i : string) (w : World) :
  exec (onClose i) w =
  {| st := {| open := false; input := input (st w) |};
     host_log := host_log w ++ [RaiseEvent "close" (InputPayload i)] |}.
Proof. reflexivity. Qed.

Lemma exec_onOpen (i : string) (w : World) :
  exec (onOpen i) w =
  {| st := {| open := true; input := input (st w) |};
     host_log := host_log w ++ [RaiseEvent "open" (InputPayload i)] |}.
Proof. reflexivity. Qed.

Lemma exec_onInputChange (t : string) (w : World) :
  exec (onInputChange t) w =
  {| st := {| open := open (st w); input := t |};
     host_log := host_log w ++ [RaiseEvent "input" (ValuePayload (VPrim (PStr t)))] |}.
Proof. reflexivity. Qed.

Lemma exec_clear_onClick (multiple : bool) (w : World) :
  exec (clear_onClick multiple) w =
  {| st := {| open := open (st w); input := "" |};
     host_log := ((host_log w ++ [SetValue (cleared multiple)])
                  ++ [RaiseEvent "clear" (ValuePayload (cleared multiple))])
                 ++ [RaiseEvent "change" (ValuePayload (cleared multiple))] |}.
Proof. reflexivity. Qed.

Lemma exec_bind {A B} (m : Handler A) (k : A -> Handler B) (w : World) :
  exec (bind m k) w = exec (k (fst (m w))) (exec m w).
Proof.
  unfold exec, bind. now destruct (m w).
Qed.

(** When the clear button is rendered its handler is [clear_onClick]. *)
Lemma render_clear_handler (p : Props) (onClick : Handler unit) :
  render_clear p = Some onClick -> onClick = clear_onClick (multiple p).
Proof.
  unfold render_clear.
  destruct (clearable p && negb (readOnlyOrDisabled p)); congruence.
Qed.

(** C2: for every state, activating the clear button raises [clear] strictly
    before [change] and raises nothing else; both events carry the cleared
    value, which is null when [multiple] is false and the empty array when it
    is true; and the host's setter is called once, with that same value. *)
Theorem clear_then_change (p : Props) (s : State) (h : HookResult)
    (onClick : Handler unit) (w : World) :
  clear_button (render_wrapper p s h) = Some onClick ->
  let c := if multiple p then VArr [] else VNull in
  host_log (exec onClick w) =
    host_log w ++ [SetValue c;
                   RaiseEvent "clear" (ValuePayload c);
                   RaiseEvent "change" (ValuePayload c)] /\
  event_names (host_log (exec onClick w)) =
    event_names (host_log w) ++ ["clear"; "change"].
Proof.
  intros H c. cbn [render_wrapper clear_button] in H.
  rewrite (render_clear_handler _ _ H), exec_clear_onClick.
  cbn [host_log]. unfold cleared. fold c.
  rewrite !event_names_app, <- !app_assoc. cbn. split; reflexivity.
Qed.

Lemma clear_then_change_witness :
  clear_button (render_wrapper clear_demo_props {| open := true; input := "br" |}
                  (idle_engine clear_demo_props)) = Some (clear_onClick true) /\
  host_log (exec (clear_onClick true) {| st := {| open := true; input := "br" |};
                                          host_log := [] |}) =
  [SetValue (VArr []);
   RaiseEvent "clear" (ValuePayload (VArr []));
   RaiseEvent "change" (ValuePayload (VArr []))].
Proof.
  split; [reflexivity |].
  exact (proj1 (clear_then_change clear_demo_props {| open := true; input := "br" |}
                  (idle_engine clear_demo_props) (clear_onClick true)
                  {| st := {| open := true; input := "br" |}; host_log := [] |}
                  eq_refl)).
Defined.

(** The callbacks the engine is configured with are the component's own, in
    both revisions. *)
Lemma hook_config_callbacks (p : Props) (s : State) (sof cob hhe : option bool) :
  let cfg := hook_config_of p s sof cob hhe in
  cfg_onChange cfg = onChange (multiple p) /\
  cfg_onInputChange cfg = onInputChange /\
  cfg_onOpen cfg = onOpen (input s) /\
  cfg_onClose cfg = onClose (input s) /\
  cfg_open cfg = open s /\
  cfg_multiple cfg = multiple p.
Proof. repeat split. Qed.

(** The first revision configures the same callbacks as the second. *)
Lemma inline_hook_config_callbacks (p : Props) (s : State) :
  cfg_onChange (Inline.hook_config p s) = cfg_onChange (Portal.hook_config p s) /\
  cfg_onClose (Inline.hook_config p s) = cfg_onClose (Portal.hook_config p s) /\
  cfg_onOpen (Inline.hook_config p s) = cfg_onOpen (Portal.hook_config p s) /\
  cfg_open (Inline.hook_config p s) = cfg_open (Portal.hook_config p s).
Proof. repeat split. Qed.




(** C10: in single-select mode the commit callback also resets the InputText
    buffer to the empty string: the same [setInput("")] runs whatever
    [multiple] is, so the input of a render from the state the commit leaves
    shows no text. *)
Theorem single_commit_clears_input (p : Props) (s : State) (newVal : JsValue)
    (w : World) (h : HookResult) :
  multiple p = false ->
  let w' := exec (cfg_onChange (Portal.hook_config p s) newVal) w in
  input (st w') = "" /\
  input_value (render_wrapper p (st w') h) = "" /\
  (forall m, input (st (exec (onChange m newVal) w)) = "").
Proof.
  intros Hm. cbn [Portal.hook_config hook_config_of cfg_onChange].
  rewrite exec_onChange. cbn. repeat split.
Qed.

Lemma single_commit_clears_input_witness :
  multiple single_demo_props = false /\
  input (st (exec (onChange false (VPrim (PStr "Road"))) open_with_text)) = "".
Proof.
  split; [reflexivity |].
  exact (proj1 (single_commit_clears_input single_demo_props (st open_with_text)
                  (VPrim (PStr "Road")) open_with_text
                  (idle_engine single_demo_props) eq_refl)).
Defined.

(* ================================================================== *)
(** * Selection through the engine *)

Lemma exec_engine_select_single (p : Props) (s : State)
    (sof cob hhe : option bool) (opt : Primitive) (w : World) :
  multiple p = false ->
  exec (engine_select_single (hook_config_of p s sof cob hhe) opt) w =
  let w1 := exec (onChange false (VPrim opt)) w in
  if open s then exec (onClose (input s)) w1 else w1.
Proof.
  intros Hm. unfold engine_select_single.
  cbn [hook_config_of cfg_onChange cfg_open cfg_onClose].
  rewrite Hm, exec_bind. cbn zeta. now destruct (open s).
Qed.

(** C4: in single-select mode, committing the selection of an option (the
    engine hands the option to the configured [onChange] and makes its Open ->
    Closed transition through the configured [onClose]) leaves the popup
    closed and raises exactly one [change] event, whose payload value is the
    selected option; the host's setter receives that same option. *)
Theorem single_select_closes_and_changes (p : Props) (s : State)
    (log : list HostCall) (opt : Primitive) :
  multiple p = false ->
  let w' := exec (engine_select_single (Portal.hook_config p s) opt)
                 {| st := s; host_log := log |} in
  open (st w') = false /\
  events_named "change" (host_log w') =
    events_named "change" log ++ [ValuePayload (VPrim opt)] /\
  setter_calls (host_log w') = setter_calls log ++ [VPrim opt].
Proof.
  intros Hm. unfold Portal.hook_config.
  rewrite (exec_engine_select_single _ _ _ _ _ _ _ Hm).
  rewrite exec_onChange. cbn zeta. cbn [nullish loose_null].
  destruct (open s) eqn:Ho.
  - rewrite exec_onClose. cbn [st host_log open].
    rewrite !events_named_app, !setter_calls_app. cbn.
    rewrite !app_nil_r. repeat split.
  - cbn [st host_log open].
    rewrite !events_named_app, !setter_calls_app. cbn.
    rewrite !app_nil_r. repeat split. exact Ho.
Qed.

Lemma single_select_closes_and_changes_witness :
  multiple single_demo_props = false /\
  host_log (exec (engine_select_single
                    (Portal.hook_config single_demo_props (st open_with_text))
                    (PStr "Road")) open_with_text) =
    [SetValue (VPrim (PStr "Road"));
     RaiseEvent "change" (ValuePayload (VPrim (PStr "Road")));
     RaiseEvent "close" (InputPayload "br")] /\
  open (st (exec (engine_select_single
                    (Portal.hook_config single_demo_props (st open_with_text))
                    (PStr "Road")) open_with_text)) = false.
Proof.
  split; [reflexivity | split; [reflexivity |]].
  exact (proj1 (single_select_closes_and_changes single_demo_props
                  (st open_with_text) [] (PStr "Road") eq_refl)).
Defined.

(** Neither revision's configuration carries the caller's predicate. *)
Lemma hook_config_no_getOptionDisabled (p : Props) (s : State)
    (sof cob hhe : option bool) :
  cfg_getOptionDisabled (hook_config_of p s sof cob hhe) = None.
Proof. reflexivity. Qed.

(** So the engine treats every option as selectable, whatever the caller's
    predicate says of it. *)
Lemma engine_click_ignores_predicate (p : Props) (s : State)
    (sof cob hhe : option bool) (opt : Primitive) :
  engine_option_onClick (hook_config_of p s sof cob hhe) opt =
  engine_select_single (hook_config_of p s sof cob hhe) opt.
Proof. reflexivity. Qed.

(** A row keeps the click handler the engine gave it; the predicate only
    reaches its style and its [aria-disabled]. *)
Lemma portal_row_keeps_engine_click (p : Props) (ps : Portal.PortalState)
    (h : HookResult) (i : nat) (opt : Primitive) (r : Row) :
  Portal.render_row p ps h i opt = Normal r ->
  row_onClick r = op_onClick (getOptionProps h opt i) /\
  disabledOpt p opt = Normal (row_aria_disabled r).
Proof.
  unfold Portal.render_row. destruct (disabledOpt p opt) as [d | e]; cbn.
  - intros [= <-]. split; reflexivity.
  - discriminate.
Qed.

Lemma inline_row_keeps_engine_click (p : Props) (h : HookResult) (i : nat)
    (opt : Primitive) (r : Row) :
  Inline.render_row p h i opt = Normal r ->
  row_onClick r = op_onClick (getOptionProps h opt i) /\
  disabledOpt p opt = Normal (row_aria_disabled r).
Proof.
  unfold Inline.render_row. destruct (disabledOpt p opt) as [d | e]; cbn.
  - intros [= <-]. split; reflexivity.
  - discriminate.
Qed.

(** In single-select mode a click on any shown option raises a [change] event
    carrying it, disabled by the caller's predicate or not. *)
Lemma click_raises_change_whatever_predicate (p : Props) (s : State)
    (sof cob hhe : option bool) (opt : Primitive) (log : list HostCall) :
  multiple p = false ->
  events_named "change"
    (host_log (exec (engine_option_onClick (hook_config_of p s sof cob hhe) opt)
                    {| st := s; host_log := log |})) =
  events_named "change" log ++ [ValuePayload (VPrim opt)].
Proof.
  intros Hm. rewrite engine_click_ignores_predicate.
  rewrite (exec_engine_select_single _ _ _ _ _ _ _ Hm), exec_onChange.
  cbn zeta. cbn [nullish loose_null].
  destruct (open s); [rewrite exec_onClose |]; cbn [st host_log];
    rewrite !events_named_app; cbn; now rewrite !app_nil_r.
Qed.

(** C3 does not hold of the code.  With options Bridge and Road, Road disabled
    by the caller's predicate, the popup open and nothing typed, both options
    are shown; the rendered Road row is marked [aria-disabled], yet clicking it
    calls the host's setter with Road and raises a [change] event carrying
    Road: the predicate never reaches the engine, and the row keeps the
    engine's click handler. *)
Theorem disabled_option_click_raises_change (number_label : number -> string)
    (focused : bool) :
  disabledOpt disabled_demo_props (PStr "Road") = Normal true /\
  option_map row_option
    (Portal.row_at (Portal.component (useAutocomplete_spec number_label focused)
                      disabled_demo_props (st open_no_text) Portal.unmounted) 1)
    = Some (PStr "Road") /\
  option_map row_aria_disabled
    (Portal.row_at (Portal.component (useAutocomplete_spec number_label focused)
                      disabled_demo_props (st open_no_text) Portal.unmounted) 1)
    = Some true /\
  host_log (exec (Portal.click_row
                    (Portal.component (useAutocomplete_spec number_label focused)
                       disabled_demo_props (st open_no_text) Portal.unmounted) 1)
                 open_no_text) =
    [SetValue (VPrim (PStr "Road"));
     RaiseEvent "change" (ValuePayload (VPrim (PStr "Road")));
     RaiseEvent "close" (InputPayload "")].
Proof. repeat split. Qed.

(** With "ro" typed only Road is shown, and its click commits just the same;
    with "br" typed Road is not shown at all. *)
Example disabled_option_click_after_typing :
  host_log (exec (Portal.click_row
                    (Portal.component (useAutocomplete_spec no_numbers true)
                       disabled_demo_props {| open := true; input := "ro" |}
                       Portal.unmounted) 0)
                 {| st := {| open := true; input := "ro" |}; host_log := [] |}) =
    [SetValue (VPrim (PStr "Road"));
     RaiseEvent "change" (ValuePayload (VPrim (PStr "Road")));
     RaiseEvent "close" (InputPayload "ro")] /\
  option_map (map row_option)
    (option_map Portal.rows_of
       (match Portal.component (useAutocomplete_spec no_numbers true)
                disabled_demo_props (st open_with_text) Portal.unmounted with
        | Normal v => Some v
        | Throw _ => None
        end)) = Some [PStr "Bridge"].
Proof. split; reflexivity. Qed.

(* ================================================================== *)
(** * Popup width and portal mounting *)


(** Whatever [render] returns carries that width. *)
Lemma portal_render_view (p : Props) (s : State) (ps : Portal.PortalState)
    (h : HookResult) (v : Portal.View) :
  Portal.render p s ps h = Normal v ->
  exists rows, v = Portal.view p s ps h rows.
Proof.
  unfold Portal.render.
  destruct (map_completion _ _ _) as [rows | e]; cbn; [| discriminate].
  intros [= <-]. now exists rows.
Qed.

Lemma inline_render_view (p : Props) (s : State) (h : HookResult)
    (v : Inline.View) :
  Inline.render p s h = Normal v ->
  exists lb, v = Inline.view p s h lb.
Proof.
  unfold Inline.render.
  destruct (Inline.render_listbox p s h) as [lb | e]; cbn; [| discriminate].
  intros [= <-]. now exists lb.
Qed.





(** The loop returns the nearest of [el] and its ancestors that passes the
    test of line 565. *)
Lemma find_themed_nearest (doc : Portal.Document) :
  forall el, Portal.find_themed doc el =
             find (Portal.defines_theme doc) (Portal.ancestors el).
Proof.
  fix IH 1. intros [t w c [up |]]; cbn [Portal.find_themed Portal.ancestors find].
  - destruct (Portal.defines_theme doc _); [reflexivity | apply IH].
  - destruct (Portal.defines_theme doc _); reflexivity.
Qed.

Lemma portal_container_nearest (doc : Portal.Document) (a : Portal.HTMLElement)
    (prev : option Portal.HTMLElement) :
  Portal.portal_container_effect doc (Some a) prev =
  Some (match find (Portal.defines_theme doc) (Portal.ancestors a) with
        | Some found => found
        | None => Portal.body doc
        end).
Proof.
  cbn. now rewrite find_themed_nearest.
Qed.

(** Without an anchor the effect leaves the container as it was. *)
Lemma portal_container_no_anchor (doc : Portal.Document)
    (prev : option Portal.HTMLElement) :
  Portal.portal_container_effect doc None prev = prev.
Proof. reflexivity. Qed.

(** The loop's test agrees with "one of the two properties has a value that is
    not blank" on every element whose first property is not a run of spaces. *)
Lemma defines_theme_agrees (doc : Portal.Document) (el : Portal.HTMLElement) :
  Portal.defaultView doc = true ->
  (truthy_string (Portal.getPropertyValue el Portal.ui_foreground) &&
   String.eqb (trim (Portal.getPropertyValue el Portal.ui_foreground)) "") = false ->
  Portal.defines_theme doc el = Portal.spec_defines_theme el.
Proof.
  intros Hv Hui.
  unfold Portal.defines_theme, Portal.fg, Portal.computed_value,
    Portal.spec_defines_theme, not_blank.
  rewrite Hv. cbn [or_else].
  destruct (truthy_string (Portal.getPropertyValue el Portal.ui_foreground)) eqn:Ht.
  - cbn in Hui. rewrite Ht, Hui. reflexivity.
  - unfold truthy_string in Ht.
    destruct (String.eqb_spec (Portal.getPropertyValue el Portal.ui_foreground) "")
      as [E | E]; [| discriminate].
    rewrite E. change (trim "") with "". cbn [String.eqb negb orb].
    destruct (truthy_string (Portal.getPropertyValue el Portal.color_foreground)) eqn:Hc;
      [reflexivity |].
    unfold truthy_string in Hc.
    destruct (String.eqb_spec (Portal.getPropertyValue el Portal.color_foreground) "")
      as [E' | E']; [| discriminate].
    rewrite E'. reflexivity.
Qed.

Lemma find_agree {A} (f g : A -> bool) (l : list A) :
  Forall (fun x => f x = g x) l -> find f l = find g l.
Proof.
  induction 1 as [| x l Hx _ IH]; cbn; [reflexivity |].
  rewrite Hx. now rewrite IH.
Qed.

(** So when no element from the anchor upward has a blank
    [--calcite-ui-foreground-1], the portal is mounted on the nearest element
    that defines one of the two properties, or on [body] when there is none. *)
Lemma portal_container_nearest_token (doc : Portal.Document)
    (a : Portal.HTMLElement) (prev : option Portal.HTMLElement) :
  Portal.defaultView doc = true ->
  Forall (fun el =>
            (truthy_string (Portal.getPropertyValue el Portal.ui_foreground) &&
             String.eqb (trim (Portal.getPropertyValue el Portal.ui_foreground)) "")
            = false) (Portal.ancestors a) ->
  Portal.portal_container_effect doc (Some a) prev =
  Some (match find Portal.spec_defines_theme (Portal.ancestors a) with
        | Some found => found
        | None => Portal.body doc
        end).
Proof.
  intros Hv Hall. rewrite portal_container_nearest.
  rewrite (find_agree (Portal.defines_theme doc) Portal.spec_defines_theme);
    [reflexivity |].
  eapply Forall_impl; [| exact Hall].
  intros el Hel. now apply defines_theme_agrees.
Qed.

(** C7 does not hold of the code.  The anchor's computed style gives
    [--calcite-ui-foreground-1] the value of one space and
    [--calcite-color-foreground-1] the value [#ffffff]; no ancestor defines
    either.  The anchor defines a theming property with a value that is not
    empty, so it is the nearest such element, but the loop passes it by and
    the portal is mounted on [body]. *)
Theorem blank_ui_token_hides_color_token :
  Portal.getPropertyValue Portal.blank_ui_anchor Portal.ui_foreground = " " /\
  Portal.getPropertyValue Portal.blank_ui_anchor Portal.color_foreground = "#ffffff" /\
  Portal.spec_defines_theme Portal.blank_ui_anchor = true /\
  Portal.defines_theme Portal.demo_document Portal.blank_ui_anchor = false /\
  option_map Portal.tagName
    (Portal.portal_container_effect Portal.demo_document
       (Some Portal.blank_ui_anchor) None) = Some "body" /\
  Portal.tagName Portal.blank_ui_anchor = "div".
Proof. repeat split. Qed.

(** With the same style minus the blank value the anchor itself is chosen,
    and a themed grandparent is found from an unthemed anchor. *)
Example color_token_anchor_chosen :
  option_map Portal.tagName
    (Portal.portal_container_effect Portal.demo_document
       (Some Portal.color_only_anchor) None) = Some "div".
Proof. reflexivity. Qed.

Example themed_ancestor_chosen :
  option_map Portal.tagName
    (Portal.portal_container_effect Portal.demo_document
       (Some Portal.plain_anchor) None) = Some "section".
Proof. reflexivity. Qed.

Example trim_examples :
  trim "  #fff " = "#fff" /\ trim " " = "" /\ trim "" = "" /\
  trim " a b  " = "a b" /\ not_blank " " = false /\ not_blank " x" = true.
Proof. repeat split. Qed.

(** White space beyond ASCII is trimmed as well: a no-break space (U+00A0,
    bytes C2 A0), a line separator (U+2028, bytes E2 80 A8) and a byte order
    mark (U+FEFF, bytes EF BB BF) make a blank value, while a zero width space
    (U+200B, bytes E2 80 8B) is not white space. *)
Example trim_unicode_examples :
  not_blank (String (ascii_of_nat 194) (String (ascii_of_nat 160) "")) = false /\
  trim (String (ascii_of_nat 194) (String (ascii_of_nat 160) "#fff")
        ++ String (ascii_of_nat 226) (String (ascii_of_nat 128)
             (String (ascii_of_nat 168) ""))) = "#fff" /\
  not_blank (String (ascii_of_nat 239) (String (ascii_of_nat 187)
               (String (ascii_of_nat 191) " "))) = false /\
  not_blank (String (ascii_of_nat 226) (String (ascii_of_nat 128)
               (String (ascii_of_nat 139) ""))) = true.
Proof. repeat split. Qed.

(** An anchor whose only theming value is a no-break space does not pass the
    effect's test, and the portal goes to [body]. *)
Example no_break_space_is_blank :
  option_map Portal.tagName
    (Portal.portal_container_effect Portal.demo_document
       (Some (Portal.Element "div" 240%float
                (fun name =>
                   if String.eqb name Portal.ui_foreground
                   then String (ascii_of_nat 194) (String (ascii_of_nat 160) "")
                   else "")
                (Some Portal.demo_form))) None) = Some "body".
Proof. reflexivity. Qed.

(* ================================================================== *)
(** * Disabled and read-only rendering *)

Lemma chips_without_remove (h : HookResult) (l : list Primitive) :
  forall i, Forall (fun c => chip_remove c = None) (render_chips_from true h i l).
Proof.
  induction l as [| opt rest IH]; intros i; cbn.
  - constructor.
  - constructor; [reflexivity | apply IH].
Qed.

Lemma chips_follow_value (rod : bool) (h : HookResult) (l : list Primitive) :
  forall i, map chip_option (render_chips_from rod h i l) = l.
Proof.
  induction l as [| opt rest IH]; intros i; cbn; [reflexivity |].
  now rewrite IH.
Qed.

(** C8: whenever [disabled] or [readOnly] is true, what either revision
    renders has no clear button, no chip carries a removal control, and the
    root element's [aria-disabled] is true. *)
Theorem disabled_or_readonly_suppresses_controls (p : Props) (s : State)
    (ps : Portal.PortalState) (h : HookResult) :
  disabled p = true \/ readOnly p = true ->
  (forall v, Portal.render p s ps h = Normal v ->
     clear_button (Portal.view_wrapper v) = None /\
     Forall (fun c => chip_remove c = None) (wrap_chips (Portal.view_wrapper v)) /\
     Portal.root_aria_disabled v = true) /\
  (forall v, Inline.render p s h = Normal v ->
     clear_button (Inline.view_wrapper v) = None /\
     Forall (fun c => chip_remove c = None) (wrap_chips (Inline.view_wrapper v)) /\
     Inline.root_aria_disabled v = true).
Proof.
  intros Hrod.
  assert (R : readOnlyOrDisabled p = true).
  { unfold readOnlyOrDisabled. destruct Hrod as [-> | ->]; [reflexivity |].
    apply orb_true_r. }
  assert (W : clear_button (render_wrapper p s h) = None /\
              Forall (fun c => chip_remove c = None)
                (wrap_chips (render_wrapper p s h))).
  { cbn [render_wrapper clear_button wrap_chips]. split.
    - unfold render_clear. rewrite R. now rewrite andb_false_r.
    - unfold render_chips. rewrite R.
      destruct (multiple p); [| constructor].
      destruct (uaValue h); try constructor. apply chips_without_remove. }
  split; intros v Hv.
  - destruct (portal_render_view _ _ _ _ _ Hv) as [rows ->].
    cbn [Portal.view Portal.view_wrapper Portal.root_aria_disabled].
    destruct W as [W1 W2]. repeat split; assumption.
  - destruct (inline_render_view _ _ _ _ Hv) as [lb ->].
    cbn [Inline.view Inline.view_wrapper Inline.root_aria_disabled].
    destruct W as [W1 W2]. repeat split; assumption.
Qed.

Lemma disabled_or_readonly_suppresses_controls_witness :
  readOnly readonly_demo_props = true /\
  exists v,
    Portal.render readonly_demo_props (st open_with_text) Portal.unmounted
      (idle_engine readonly_demo_props) = Normal v /\
    map chip_option (wrap_chips (Portal.view_wrapper v)) =
      [PStr "Bridge"; PStr "Road"] /\
    clear_button (Portal.view_wrapper v) = None /\
    Forall (fun c => chip_remove c = None) (wrap_chips (Portal.view_wrapper v)) /\
    Portal.root_aria_disabled v = true.
Proof.
  split; [reflexivity |].
  eexists. split; [reflexivity |]. split; [reflexivity |].
  exact (proj1 (disabled_or_readonly_suppresses_controls readonly_demo_props
                  (st open_with_text) Portal.unmounted
                  (idle_engine readonly_demo_props) (or_intror eq_refl))
           _ eq_refl).
Defined.

(** A render ends normally whenever the caller's predicate does. *)
Lemma map_completion_normal {A B} (f : nat -> A -> Completion B) (xs : list A) :
  forall i,
    (forall j x, In x xs -> exists y, f j x = Normal y) ->
    exists ys, map_completion f i xs = Normal ys.
Proof.
  induction xs as [| x rest IH]; intros i Hf; cbn.
  - now exists [].
  - destruct (Hf i x (or_introl eq_refl)) as [y ->]. cbn.
    destruct (IH (S i) (fun j z Hz => Hf j z (or_intror Hz))) as [ys ->].
    cbn. now exists (y :: ys).
Qed.

Lemma portal_render_total (p : Props) (s : State) (ps : Portal.PortalState)
    (h : HookResult) :
  (forall opt, In opt (groupedOptions h) -> exists b, disabledOpt p opt = Normal b) ->
  exists v, Portal.render p s ps h = Normal v.
Proof.
  intros Hf. unfold Portal.render.
  destruct (map_completion_normal (Portal.render_row p ps h) (groupedOptions h) 0)
    as [rows ->].
  - intros j x Hx. unfold Portal.render_row.
    destruct (Hf x Hx) as [b ->]. cbn. eexists; reflexivity.
  - cbn. eexists; reflexivity.
Qed.

(* ================================================================== *)
(** * Caller-supplied functions that throw *)

Lemma map_completion_throw {A B} (f : nat -> A -> Completion B)
    (pre : list A) (x : A) (post : list A) (e : string) :
  forall i,
    (forall j y, In y pre -> exists b, f j y = Normal b) ->
    (forall j, f j x = Throw e) ->
    map_completion f i (pre ++ x :: post) = Throw e.
Proof.
  induction pre as [| y pre IH]; intros i Hpre Hx; cbn.
  - now rewrite Hx.
  - destruct (Hpre i y (or_introl eq_refl)) as [b ->]. cbn.
    rewrite (IH (S i)); [reflexivity | | exact Hx].
    intros j z Hz. apply Hpre. now right.
Qed.

(** The hook of the engine model throws whatever its calls on the caller's
    functions throw. *)
Lemma spec_engine_invokes (number_label : number -> string) (focused : bool)
    (cfg : HookConfig) (e : string) :
  engine_invocations number_label cfg = Throw e ->
  useAutocomplete_spec number_label focused cfg = Throw e.
Proof.
  intros H. unfold useAutocomplete_spec. now rewrite H.
Qed.

(** Both revisions hand the engine the same options, text and functions. *)
Lemma engine_invocations_same (number_label : number -> string) (p : Props)
    (s : State) :
  engine_invocations number_label (Inline.hook_config p s) =
  engine_invocations number_label (Portal.hook_config p s).
Proof. reflexivity. Qed.

(** C9: a caller-supplied function that throws is not caught.  The hook is
    called with no catch around it, so whatever the call of the hook throws
    is the outcome of the component; the caller's [filterOptions] and
    [groupBy] are in the configuration as the very functions supplied, so for
    any hook that throws what its calls on them throw, a [filterOptions] that
    throws on the options and the input text, or a [groupBy] that throws on an
    option that is shown, makes the component throw that exception; and the
    component's own call of [getOptionDisabled] has no catch either: when it
    throws on one of the options being rendered (not having thrown on an
    earlier one) the component throws, in the second revision on every render
    and in the first whenever the popup is open. *)
Theorem caller_exception_propagates (number_label : number -> string)
    (E : HookConfig -> Completion HookResult) (p : Props) (s : State)
    (ps : Portal.PortalState) (e : string) :
  (forall cfg e', engine_invocations number_label cfg = Throw e' ->
                  E cfg = Throw e') ->
  (exists f, filterOptions p = Some f /\ f (options p) (input s) = Throw e) \/
  (exists g pre opt post,
     groupBy p = Some g /\
     engine_filtered number_label (Portal.hook_config p s) =
       Normal (pre ++ opt :: post) /\
     (forall o, In o pre -> exists k, g o = Normal k) /\
     g opt = Throw e) \/
  (exists f h hi,
     getOptionDisabled p = Some f /\
     E (Portal.hook_config p s) = Normal h /\
     E (Inline.hook_config p s) = Normal hi /\
     throws_first_on f h e /\
     throws_first_on f hi e) ->
  Portal.component E p s ps = Throw e /\
  (open s = true -> Inline.component E p s = Throw e) /\
  (forall e', E (Portal.hook_config p s) = Throw e' ->
              Portal.component E p s ps = Throw e') /\
  (forall e', E (Inline.hook_config p s) = Throw e' ->
              Inline.component E p s = Throw e') /\
  cfg_filterOptions (Portal.hook_config p s) = filterOptions p /\
  cfg_groupBy (Portal.hook_config p s) = groupBy p /\
  cfg_filterOptions (Inline.hook_config p s) = filterOptions p /\
  cfg_groupBy (Inline.hook_config p s) = groupBy p.
Proof.
  intros HE Hcase.
  assert (Hook : forall e', engine_invocations number_label (Portal.hook_config p s)
                            = Throw e' ->
                 Portal.component E p s ps = Throw e' /\
                 Inline.component E p s = Throw e').
  { intros e' Hinv. unfold Portal.component, Inline.component.
    rewrite (HE _ _ Hinv).
    rewrite <- (engine_invocations_same number_label p s) in Hinv.
    rewrite (HE _ _ Hinv). split; reflexivity. }
  assert (Hp : forall e', E (Portal.hook_config p s) = Throw e' ->
                          Portal.component E p s ps = Throw e').
  { intros e' H. unfold Portal.component. now rewrite H. }
  assert (Hi : forall e', E (Inline.hook_config p s) = Throw e' ->
                          Inline.component E p s = Throw e').
  { intros e' H. unfold Inline.component. now rewrite H. }
  assert (Main : Portal.component E p s ps = Throw e /\
                 (open s = true -> Inline.component E p s = Throw e)).
  { destruct Hcase as [[f [Hf Hthrow]]
                      | [[g [pre [opt [post (Hg & Hshown & Hpre & Hopt)]]]]
                        | [f [h [hi (Hf & HEp & HEi & Hth & Hthi)]]]]].
    - destruct (Hook e) as [H1 H2]; [| now split].
      unfold engine_invocations, engine_filtered.
      cbn [Portal.hook_config hook_config_of cfg_filterOptions cfg_options
           cfg_inputValue].
      now rewrite Hf, Hthrow.
    - destruct (Hook e) as [H1 H2]; [| now split].
      unfold engine_invocations. rewrite Hshown. cbn [cbind].
      cbn [Portal.hook_config hook_config_of cfg_groupBy]. rewrite Hg.
      rewrite (map_completion_throw _ pre opt post e); [reflexivity | |].
      + intros _ y Hy. exact (Hpre y Hy).
      + intros _. exact Hopt.
    - assert (D : forall o, disabledOpt p o = f o).
      { intros o. unfold disabledOpt. now rewrite Hf. }
      split.
      + destruct Hth as (pre & opt & post & Hgo & Hpre & Hopt).
        unfold Portal.component. rewrite HEp. cbn [cbind].
        unfold Portal.render. rewrite Hgo.
        rewrite (map_completion_throw _ pre opt post e); [reflexivity | |].
        * intros j y Hy. unfold Portal.render_row. rewrite D.
          destruct (Hpre y Hy) as [b ->]. cbn. eexists; reflexivity.
        * intros j. unfold Portal.render_row. rewrite D, Hopt. reflexivity.
      + destruct Hthi as (pre & opt & post & Hgo & Hpre & Hopt).
        intros Ho. unfold Inline.component. rewrite HEi. cbn [cbind].
        unfold Inline.render, Inline.render_listbox. rewrite Ho, Hgo.
        rewrite length_app. cbn [List.length].
        replace (Nat.ltb 0 (List.length pre + S (List.length post))) with true
          by (symmetry; apply Nat.ltb_lt; lia).
        cbn [andb].
        rewrite (map_completion_throw _ pre opt post e); [reflexivity | |].
        * intros j y Hy. unfold Inline.render_row. rewrite D.
          destruct (Hpre y Hy) as [b ->]. cbn. eexists; reflexivity.
        * intros j. unfold Inline.render_row. rewrite D, Hopt. reflexivity. }
  destruct Main as [M1 M2].
  split; [exact M1 | split; [exact M2 | split; [exact Hp | split; [exact Hi |]]]].
  repeat split.
Qed.

Lemma caller_exception_propagates_witness :
  Portal.component (useAutocomplete_spec no_numbers true) filter_throws_props
    (st open_no_text) Portal.unmounted = Throw "no filter today" /\
  Portal.component (useAutocomplete_spec no_numbers true) group_throws_props
    (st open_no_text) Portal.unmounted = Throw "no group for roads" /\
  Portal.component (useAutocomplete_spec no_numbers true) throwing_demo_props
    (st open_no_text) Portal.unmounted = Throw "road is closed".
Proof.
  split; [| split].
  - refine (proj1 (caller_exception_propagates no_numbers
             (useAutocomplete_spec no_numbers true) filter_throws_props
             (st open_no_text) Portal.unmounted "no filter today"
             (spec_engine_invokes no_numbers true) _)).
    left. exists filter_throws. split; reflexivity.
  - refine (proj1 (caller_exception_propagates no_numbers
             (useAutocomplete_spec no_numbers true) group_throws_props
             (st open_no_text) Portal.unmounted "no group for roads"
             (spec_engine_invokes no_numbers true) _)).
    right. left. exists group_throws, [PStr "Bridge"], (PStr "Road"), [PStr "Tunnel"].
    repeat split. intros o [<- | []]. exists None. reflexivity.
  - refine (proj1 (caller_exception_propagates no_numbers
             (useAutocomplete_spec no_numbers true) throwing_demo_props
             (st open_no_text) Portal.unmounted "road is closed"
             (spec_engine_invokes no_numbers true) _)).
    right. right.
    assert (T : forall h, groupedOptions h = [PStr "Bridge"; PStr "Road"; PStr "Tunnel"] ->
                          throws_first_on road_throws h "road is closed").
    { intros h Hh. exists [PStr "Bridge"], (PStr "Road"), [PStr "Tunnel"].
      split; [exact Hh |]. split; [| reflexivity].
      intros o [<- | []]. exists false. reflexivity. }
    eexists road_throws, _, _.
    split; [reflexivity |]. split; [reflexivity |]. split; [reflexivity |].
    split; apply T; reflexivity.
Defined.

(* ================================================================== *)
(** * Further properties of the value adapter *)

(** X1: normalising twice is normalising once, for every run-time value
    ([undefined] included) and both settings of [multiple]. *)
Theorem hookValue_idempotent (multiple : bool) (v : JsValue) :
  hookValue multiple (hookValue multiple v) = hookValue multiple v.
Proof.
  destruct multiple, v as [| | p | [| x l]]; reflexivity.
Qed.

(** X2: turning [multiple] on and off again.  A FieldValue read in single
    mode survives the round trip through multi mode; a FieldValue read in multi
    mode comes back from single mode cut down to its first element. *)
Theorem hookValue_mode_round_trip (v : FieldValue) :
  hookValue false (hookValue true (hookValue false (of_field v))) =
    hookValue false (of_field v) /\
  exists l,
    hookValue true (of_field v) = VArr l /\
    hookValue true (hookValue false (hookValue true (of_field v))) =
      VArr (firstn 1 l).
Proof.
  destruct v as [| p | [| x l]]; (split; [reflexivity |]);
    eexists; split; reflexivity.
Qed.

(* ================================================================== *)
(** * Further properties of the callbacks *)

Lemma exec_ret (w : World) : exec (ret tt) w = w.
Proof. reflexivity. Qed.

Lemma exec_seq (m k : Handler unit) (w : World) :
  exec (m ;; k) w = exec k (exec m w).
Proof.
  unfold exec, bind. now destruct (m w).
Qed.

Lemma exec_setInput (t : string) (w : World) :
  exec (setInput t) w =
  {| st := {| open := open (st w); input := t |}; host_log := host_log w |}.
Proof. reflexivity. Qed.

Lemma exec_setOpen (b : bool) (w : World) :
  exec (setOpen b) w =
  {| st := {| open := b; input := input (st w) |}; host_log := host_log w |}.
Proof. reflexivity. Qed.

Lemma world_eta (w : World) :
  {| st := {| open := open (st w); input := input (st w) |};
     host_log := host_log w |} = w.
Proof. now destruct w as [[o i] l]. Qed.

(** X3: in single-select mode the commit callback never hands [undefined] to
    the host: a null or [undefined] from the engine reaches the setter and the
    [change] event as null, and any other value reaches them unchanged.  In
    multi-select mode the engine's value is handed on as it is. *)
Theorem commit_value_handed_on (newVal : JsValue) (w : World) :
  host_log (exec (onChange false newVal) w) =
    host_log w ++ [SetValue (match newVal with
                             | VUndefined | VNull => VNull
                             | v => v
                             end);
                   RaiseEvent "change"
                     (ValuePayload (match newVal with
                                    | VUndefined | VNull => VNull
                                    | v => v
                                    end))] /\
  host_log (exec (onChange true newVal) w) =
    host_log w ++ [SetValue newVal; RaiseEvent "change" (ValuePayload newVal)].
Proof.
  rewrite !exec_onChange. cbn [host_log]. rewrite <- !app_assoc. cbn [app].
  split; [destruct newVal |]; reflexivity.
Qed.

(** X4: after the clear button the text buffer is empty and the popup is as it
    was; and once the host stores the value it was handed, the adapter returns
    that value unchanged and the next render shows no chip. *)
Theorem clear_leaves_nothing_selected (p : Props) (s : State) (h : HookResult)
    (w : World) :
  value p = cleared (multiple p) ->
  uaValue h = hookValue (multiple p) (value p) ->
  input (st (exec (clear_onClick (multiple p)) w)) = "" /\
  open (st (exec (clear_onClick (multiple p)) w)) = open (st w) /\
  hookValue (multiple p) (value p) = cleared (multiple p) /\
  wrap_chips (render_wrapper p s h) = [].
Proof.
  intros Hv Hua. rewrite exec_clear_onClick. cbn [st input open].
  assert (Hh : hookValue (multiple p) (value p) = cleared (multiple p)).
  { rewrite Hv. now destruct (multiple p). }
  repeat split; [exact Hh |].
  cbn [render_wrapper wrap_chips]. unfold render_chips.
  rewrite Hua, Hh. now destruct (multiple p).
Qed.

Lemma clear_leaves_nothing_selected_witness :
  value cleared_demo_props = cleared (multiple cleared_demo_props) /\
  input (st (exec (clear_onClick true) open_with_text)) = "" /\
  open (st (exec (clear_onClick true) open_with_text)) = true /\
  wrap_chips (render_wrapper cleared_demo_props (st open_with_text)
                (idle_engine cleared_demo_props)) = [].
Proof.
  split; [reflexivity |].
  destruct (clear_leaves_nothing_selected cleared_demo_props (st open_with_text)
              (idle_engine cleared_demo_props) open_with_text eq_refl eq_refl)
    as (H1 & H2 & _ & H4).
  split; [exact H1 | split; [exact H2 | exact H4]].
Defined.

Lemma nth_error_chips (rod : bool) (h : HookResult) (l : list Primitive) :
  forall i k opt,
    nth_error l k = Some opt ->
    nth_error (render_chips_from rod h i l) k =
    Some {| chip_option := opt;
            chip_remove := if negb rod then Some (tag_onDelete h (i + k)) else None |}.
Proof.
  induction l as [| x rest IH]; intros i k opt Hk.
  - destruct k; discriminate.
  - destruct k as [| k]; cbn in *.
    + injection Hk as <-. now rewrite Nat.add_0_r.
    + rewrite (IH (S i) k opt Hk). now rewrite Nat.add_succ_r.
Qed.

Lemma chips_length (rod : bool) (h : HookResult) (l : list Primitive) :
  forall i, List.length (render_chips_from rod h i l) = List.length l.
Proof.
  induction l as [| x rest IH]; intros i; cbn; [reflexivity |].
  now rewrite IH.
Qed.

(** X5: in multi-select mode the chips are the engine's selected values, one
    chip each and in the same order, and while the component is neither
    disabled nor read-only the chip at position [k] removes through the
    engine's delete handler for index [k]. *)
Theorem chips_mirror_selection (p : Props) (h : HookResult)
    (l : list Primitive) :
  multiple p = true ->
  uaValue h = VArr l ->
  map chip_option (render_chips p h) = l /\
  forall k opt,
    nth_error l k = Some opt ->
    nth_error (render_chips p h) k =
    Some {| chip_option := opt;
            chip_remove := if readOnlyOrDisabled p then None
                           else Some (tag_onDelete h k) |}.
Proof.
  intros Hm Hua. unfold render_chips. rewrite Hm, Hua. split.
  - apply chips_follow_value.
  - intros k opt Hk. rewrite (nth_error_chips _ _ _ 0 k opt Hk). cbn [Nat.add].
    now destruct (readOnlyOrDisabled p).
Qed.

Lemma chips_mirror_selection_witness :
  multiple clear_demo_props = true /\
  map chip_option (render_chips clear_demo_props (idle_engine clear_demo_props)) =
    [PStr "Bridge"; PStr "Road"].
Proof.
  split; [reflexivity |].
  exact (proj1 (chips_mirror_selection clear_demo_props
                  (idle_engine clear_demo_props) [PStr "Bridge"; PStr "Road"]
                  eq_refl eq_refl)).
Defined.

(** In single-select mode no chip is rendered, whatever value the engine
    reports. *)
Lemma no_chips_in_single_mode (p : Props) (h : HookResult) :
  multiple p = false -> render_chips p h = [].
Proof.
  intros Hm. unfold render_chips. now rewrite Hm.
Qed.

(* ================================================================== *)
(** * Properties of runs of callbacks *)

Lemma exec_call_opt_clear (p : Props) (w : World) :
  exec (call_opt (render_clear p)) w =
  if clearable p && negb (readOnlyOrDisabled p)
  then exec (clear_onClick (multiple p)) w
  else w.
Proof.
  unfold render_clear. now destruct (clearable p && negb (readOnlyOrDisabled p)).
Qed.

Lemma exec_onClickInput (p : Props) (w : World) :
  exec (onClickInput p) w =
  if negb (disabled p) && negb (readOnly p)
  then {| st := {| open := true; input := input (st w) |}; host_log := host_log w |}
  else w.
Proof.
  unfold onClickInput. now destruct (negb (disabled p) && negb (readOnly p)).
Qed.

Lemma exec_open_on_focus (p : Props) (s : State) (w : World) :
  exec (open_on_focus p s) w =
  if openOnFocus p && negb (open s)
  then {| st := {| open := true; input := input (st w) |}; host_log := host_log w |}
  else w.
Proof.
  unfold open_on_focus. now destruct (openOnFocus p && negb (open s)).
Qed.

(** Each action appends its calls to the host's log and touches nothing that
    is already there. *)
Lemma handler_of_log (p : Props) (s : State) (a : Action) (w : World) :
  host_log (exec (handler_of p s a) w) = host_log w ++ action_calls p s a.
Proof.
  destruct a; cbn [handler_of action_calls].
  - rewrite exec_onChange. cbn [host_log]. now rewrite <- app_assoc.
  - now rewrite exec_onInputChange.
  - now rewrite exec_onOpen.
  - now rewrite exec_onClose.
  - rewrite exec_call_opt_clear.
    destruct (clearable p && negb (readOnlyOrDisabled p)).
    + rewrite exec_clear_onClick. cbn [host_log]. now rewrite <- !app_assoc.
    + now rewrite app_nil_r.
  - rewrite exec_onClickInput.
    destruct (negb (disabled p) && negb (readOnly p)); cbn [host_log];
      now rewrite app_nil_r.
  - rewrite exec_setInput. cbn [host_log]. now rewrite app_nil_r.
  - rewrite exec_open_on_focus.
    destruct (openOnFocus p && negb (open s)); cbn [host_log];
      now rewrite app_nil_r.
Qed.

Lemma run_event_log (p : Props) (s : State) (acts : list Action) :
  forall w,
    host_log (exec (run_event p s acts) w) =
    host_log w ++ flat_map (action_calls p s) acts.
Proof.
  induction acts as [| a rest IH]; intros w; cbn [run_event flat_map].
  - rewrite exec_ret. now rewrite app_nil_r.
  - rewrite exec_seq, IH, handler_of_log. now rewrite <- app_assoc.
Qed.

(** A property of logs that holds of the empty log, of what each action
    appends, and of concatenations, holds after every run. *)
Lemma run_trace_log_invariant (I : list HostCall -> Prop) :
  (forall l1 l2, I l1 -> I l2 -> I (l1 ++ l2)) ->
  I [] ->
  (forall p s a, I (action_calls p s a)) ->
  forall tr w, I (host_log w) -> I (host_log (run_trace tr w)).
Proof.
  intros Happ Hnil Hact tr.
  induction tr as [| [p acts] rest IH]; intros w Hw; cbn [run_trace].
  - exact Hw.
  - apply IH. rewrite run_event_log. apply Happ; [exact Hw |].
    induction acts as [| a more IHa]; cbn [flat_map]; [exact Hnil |].
    apply Happ; [apply Hact | exact IHa].
Qed.

(** X6: over any run of events from a fresh host, the values the host's
    setter received and the payloads of the [change] events raised are the same
    list: every proposed value is announced by one [change] carrying it, in
    order, and no [change] is raised without the setter being called. *)
Theorem setter_and_change_in_step (tr : list (Props * list Action)) (s : State) :
  map ValuePayload
      (setter_calls (host_log (run_trace tr {| st := s; host_log := [] |}))) =
  events_named "change" (host_log (run_trace tr {| st := s; host_log := [] |})).
Proof.
  apply (run_trace_log_invariant
           (fun l => map ValuePayload (setter_calls l) = events_named "change" l)).
  - intros l1 l2 H1 H2.
    now rewrite setter_calls_app, events_named_app, map_app, H1, H2.
  - reflexivity.
  - intros p s0 a. destruct a; cbn; try reflexivity.
    destruct (clearable p && negb (readOnlyOrDisabled p)); reflexivity.
  - reflexivity.
Qed.

(** X7: over any run of events the component raises no event other than
    [input], [change], [open], [close] and [clear]. *)
Theorem only_known_events_raised (tr : list (Props * list Action)) (s : State) :
  Forall (fun n => In n event_vocabulary)
         (event_names (host_log (run_trace tr {| st := s; host_log := [] |}))).
Proof.
  apply (run_trace_log_invariant
           (fun l => Forall (fun n => In n event_vocabulary) (event_names l))).
  - intros l1 l2 H1 H2. rewrite event_names_app. apply Forall_app. now split.
  - constructor.
  - intros p s0 a. unfold event_vocabulary.
    destruct a; cbn [action_calls];
      try destruct (clearable p && negb (readOnlyOrDisabled p));
      cbn [event_names];
      repeat (apply Forall_cons; [cbn; auto 8 |]); apply Forall_nil.
  - constructor.
Qed.

Lemma quiet_event_calls (p : Props) (s : State) (acts : list Action) :
  forallb (fun a => negb (writes_value a)) acts = true ->
  setter_calls (flat_map (action_calls p s) acts) = [] /\
  events_named "change" (flat_map (action_calls p s) acts) = [] /\
  events_named "clear" (flat_map (action_calls p s) acts) = [].
Proof.
  induction acts as [| a rest IH]; cbn [forallb flat_map]; [now repeat split |].
  intros H. apply andb_true_iff in H as [Ha Hrest].
  destruct (IH Hrest) as (I1 & I2 & I3).
  rewrite setter_calls_app, !events_named_app, I1, I2, I3.
  destruct a; cbn in Ha; try discriminate; cbn; now repeat split.
Qed.

(** X8: typing, opening, closing, clicking the input and focusing it never
    touch the host's value: over a run made of such actions only, the setter is
    not called and neither [change] nor [clear] is raised. *)
Theorem only_commit_and_clear_write (tr : list (Props * list Action)) (w : World) :
  forallb (fun ev => forallb (fun a => negb (writes_value a)) (snd ev)) tr = true ->
  setter_calls (host_log (run_trace tr w)) = setter_calls (host_log w) /\
  events_named "change" (host_log (run_trace tr w)) =
    events_named "change" (host_log w) /\
  events_named "clear" (host_log (run_trace tr w)) =
    events_named "clear" (host_log w).
Proof.
  revert w. induction tr as [| [p acts] rest IH]; intros w H; cbn [run_trace].
  - now repeat split.
  - cbn [forallb snd] in H. apply andb_true_iff in H as [Ha Hrest].
    destruct (IH (exec (run_event p (st w) acts) w) Hrest) as (I1 & I2 & I3).
    destruct (quiet_event_calls p (st w) acts Ha) as (Q1 & Q2 & Q3).
    rewrite I1, I2, I3, run_event_log.
    rewrite setter_calls_app, !events_named_app, Q1, Q2, Q3, !app_nil_r.
    now repeat split.
Qed.

Lemma only_commit_and_clear_write_witness :
  host_log (run_trace [(single_demo_props, [Typed "ro"; InputChange "ro"; RequestOpen]);
                       (single_demo_props, [ClickInput; Focus; RequestClose])]
              open_with_text) =
    [RaiseEvent "input" (ValuePayload (VPrim (PStr "ro")));
     RaiseEvent "open" (InputPayload "br");
     RaiseEvent "close" (InputPayload "ro")] /\
  setter_calls
    (host_log (run_trace [(single_demo_props, [Typed "ro"; InputChange "ro"; RequestOpen]);
                          (single_demo_props, [ClickInput; Focus; RequestClose])]
                 open_with_text)) = setter_calls (host_log open_with_text).
Proof.
  split; [reflexivity |].
  exact (proj1 (only_commit_and_clear_write
                  [(single_demo_props, [Typed "ro"; InputChange "ro"; RequestOpen]);
                   (single_demo_props, [ClickInput; Focus; RequestClose])]
                  open_with_text eq_refl)).
Defined.

(** X9: the [open] and [close] events carry the text of the render that
    created the callbacks, not the text written earlier in the same event: when
    one keystroke makes the engine report the new text and then ask to open,
    [input] carries the new text and [open] still carries the old one. *)
Theorem open_event_carries_rendered_text (p : Props) (s : State) (t : string)
    (w : World) :
  let w' := exec (run_event p s [InputChange t; RequestOpen]) w in
  host_log w' = host_log w ++ [RaiseEvent "input" (ValuePayload (VPrim (PStr t)));
                               RaiseEvent "open" (InputPayload (input s))] /\
  input (st w') = t /\
  open (st w') = true /\
  host_log (exec (run_event p s [InputChange t; RequestClose]) w) =
    host_log w ++ [RaiseEvent "input" (ValuePayload (VPrim (PStr t)));
                   RaiseEvent "close" (InputPayload (input s))].
Proof.
  cbn zeta. rewrite !run_event_log. cbn [flat_map action_calls app].
  cbn [run_event handler_of]. rewrite !exec_seq, exec_ret.
  rewrite exec_onOpen, exec_onInputChange. cbn. repeat split.
Qed.

(* ================================================================== *)
(** * Properties of the text input's handlers *)

(** X10: a click on the input opens the popup unless the component is disabled
    or read-only, and a focus opens it exactly when [openOnFocus] is set and the
    popup was closed at render (the focus path does not look at [disabled] or
    [readOnly]).  Either way the component's own part calls nothing on the
    host, so the popup opens without an [open] event, and the text buffer is
    what the engine's handler left. *)
Theorem click_and_focus_open_silently (p : Props) (s : State) (ip : InputProps)
    (w : World) :
  let wc := exec (call_opt (ip_onClick ip)) w in
  let wf := exec (call_opt (ip_onFocus ip)) w in
  host_log (exec (input_onClick p ip) w) = host_log wc /\
  input (st (exec (input_onClick p ip) w)) = input (st wc) /\
  open (st (exec (input_onClick p ip) w)) =
    (if disabled p || readOnly p then open (st wc) else true) /\
  host_log (exec (input_onFocus p s ip) w) = host_log wf /\
  input (st (exec (input_onFocus p s ip) w)) = input (st wf) /\
  open (st (exec (input_onFocus p s ip) w)) =
    (if openOnFocus p && negb (open s) then true else open (st wf)).
Proof.
  cbn zeta. unfold input_onClick, input_onFocus.
  rewrite !exec_seq, exec_onClickInput, exec_open_on_focus.
  destruct (disabled p), (readOnly p), (openOnFocus p), (open s); cbn;
    repeat split.
Qed.

(** X11: after the input's change handler the text buffer holds the typed
    text, whatever the engine's own change handler wrote to it; the popup
    state and the host calls are exactly those the engine's handler made. *)
Theorem typed_text_wins (ip : InputProps) (typed : string) (w : World) :
  let we := exec (call_opt (option_map (fun f => f typed) (ip_onChange ip))) w in
  input (st (exec (input_onChange ip typed) w)) = typed /\
  open (st (exec (input_onChange ip typed) w)) = open (st we) /\
  host_log (exec (input_onChange ip typed) w) = host_log we.
Proof.
  cbn zeta. unfold input_onChange. rewrite exec_seq, exec_setInput.
  cbn. repeat split.
Qed.

(* ================================================================== *)
(** * Properties of the rendered listbox *)

Lemma map_completion_rows {A B} (f : nat -> A -> Completion B) (xs : list A) :
  forall i ys,
    map_completion f i xs = Normal ys ->
    List.length ys = List.length xs /\
    forall k y, nth_error ys k = Some y ->
                exists x, nth_error xs k = Some x /\ f (i + k) x = Normal y.
Proof.
  induction xs as [| x rest IH]; intros i ys; cbn [map_completion].
  - intros [= <-]. split; [reflexivity |]. intros [| k] y; discriminate.
  - destruct (f i x) as [y0 | e] eqn:Hx; cbn [cbind]; [| discriminate].
    destruct (map_completion f (S i) rest) as [ys0 | e] eqn:Hr; cbn [cbind];
      [| discriminate].
    intros [= <-]. destruct (IH (S i) ys0 Hr) as [Hlen Hnth].
    split; [cbn; now rewrite Hlen |].
    intros [| k] y Hy; cbn in Hy.
    + injection Hy as <-. exists x. split; [reflexivity |].
      now rewrite Nat.add_0_r.
    + destruct (Hnth k y Hy) as [x' [Hx' Hf]]. exists x'. split; [exact Hx' |].
      now rewrite Nat.add_succ_r.
Qed.

Lemma nth_error_map_eq {A B} (g : A -> B) :
  forall (ys : list A) (xs : list B),
    List.length ys = List.length xs ->
    (forall k y, nth_error ys k = Some y -> nth_error xs k = Some (g y)) ->
    map g ys = xs.
Proof.
  induction ys as [| y ys IH]; intros [| x xs] Hlen Hnth; cbn in *;
    try discriminate; [reflexivity |].
  specialize (Hnth 0 y eq_refl) as H0. cbn in H0. injection H0 as <-.
  f_equal. apply IH; [now injection Hlen |].
  intros k y' Hk. exact (Hnth (S k) y' Hk).
Qed.

(** Every rendered row of the second revision is [render_row] of the option
    at its own position. *)
Lemma portal_rows_rendered (p : Props) (s : State) (ps : Portal.PortalState)
    (h : HookResult) (v : Portal.View) :
  Portal.render p s ps h = Normal v ->
  List.length (Portal.rows_of v) = List.length (groupedOptions h) /\
  forall k r, nth_error (Portal.rows_of v) k = Some r ->
              exists opt, nth_error (groupedOptions h) k = Some opt /\
                          Portal.render_row p ps h k opt = Normal r.
Proof.
  unfold Portal.render.
  destruct (map_completion _ _ _) as [rows | e] eqn:Hrows; cbn [cbind];
    [| discriminate].
  intros [= <-]. exact (map_completion_rows _ _ _ _ Hrows).
Qed.

Lemma portal_row_fields (p : Props) (ps : Portal.PortalState) (h : HookResult)
    (k : nat) (opt : Primitive) (r : Row) :
  Portal.render_row p ps h k opt = Normal r ->
  exists d,
    disabledOpt p opt = Normal d /\
    r = {| row_option := opt;
           row_onClick := op_onClick (getOptionProps h opt k);
           row_disabled_style := d;
           row_aria_disabled := d;
           row_aria_selected := selected p h opt;
           row_checked := selected p h opt;
           row_background :=
             if Portal.nat_opt_eqb (Portal.hoveredIndex ps) k then BgHover
             else if selected p h opt then BgSelected else BgNone |}.
Proof.
  unfold Portal.render_row. destruct (disabledOpt p opt) as [d | e]; cbn [cbind].
  - intros [= <-]. now exists d.
  - discriminate.
Qed.

(** X12: when the second revision's render succeeds, the listbox has one row
    per option the engine shows, in the engine's order; the row at position
    [k] carries the click handler the engine issued for that option and
    position, its [aria-disabled] and its disabled style are both the caller's
    verdict on the option, and its [aria-selected] is its checkmark. *)
Theorem portal_rows_mirror_options (p : Props) (s : State)
    (ps : Portal.PortalState) (h : HookResult) (v : Portal.View) :
  Portal.render p s ps h = Normal v ->
  map row_option (Portal.rows_of v) = groupedOptions h /\
  forall k r,
    nth_error (Portal.rows_of v) k = Some r ->
    row_onClick r = op_onClick (getOptionProps h (row_option r) k) /\
    disabledOpt p (row_option r) = Normal (row_aria_disabled r) /\
    row_disabled_style r = row_aria_disabled r /\
    row_aria_selected r = row_checked r /\
    row_checked r = selected p h (row_option r).
Proof.
  intros Hv. destruct (portal_rows_rendered _ _ _ _ _ Hv) as [Hlen Hnth]. split.
  - apply (nth_error_map_eq row_option); [exact Hlen |].
    intros k r Hk. destruct (Hnth k r Hk) as [opt [Hopt Hr]].
    destruct (portal_row_fields _ _ _ _ _ _ Hr) as [d [_ ->]]. exact Hopt.
  - intros k r Hk. destruct (Hnth k r Hk) as [opt [_ Hr]].
    destruct (portal_row_fields _ _ _ _ _ _ Hr) as [d [Hd ->]].
    cbn. repeat split. exact Hd.
Qed.

Lemma portal_rows_mirror_options_witness :
  exists v,
    Portal.render disabled_demo_props (st open_with_text) Portal.unmounted
      (idle_engine disabled_demo_props) = Normal v /\
    map row_option (Portal.rows_of v) = [PStr "Bridge"; PStr "Road"] /\
    map row_aria_disabled (Portal.rows_of v) = [false; true].
Proof.
  eexists. split; [reflexivity |]. split; [| reflexivity].
  exact (proj1 (portal_rows_mirror_options disabled_demo_props (st open_with_text)
                  Portal.unmounted (idle_engine disabled_demo_props) _ eq_refl)).
Defined.

Lemma nat_opt_eqb_iff (a : option nat) (k : nat) :
  Portal.nat_opt_eqb a k = true <-> a = Some k.
Proof.
  destruct a as [n |]; cbn.
  - rewrite Nat.eqb_eq. split; [now intros -> | now intros [= ->]].
  - split; discriminate.
Qed.

(** X13: in a successful render of the second revision the row at position
    [k] has the hover background exactly when [hoveredIndex] is [k], selected
    or not, so at most one row has it; any other row has the selected
    background exactly when it is checked. *)
Theorem hover_background_wins (p : Props) (s : State)
    (ps : Portal.PortalState) (h : HookResult) (v : Portal.View) :
  Portal.render p s ps h = Normal v ->
  forall k r,
    nth_error (Portal.rows_of v) k = Some r ->
    (row_background r = BgHover <-> Portal.hoveredIndex ps = Some k) /\
    (row_background r = BgSelected <->
       Portal.hoveredIndex ps <> Some k /\ row_checked r = true).
Proof.
  intros Hv k r Hk.
  destruct (portal_rows_rendered _ _ _ _ _ Hv) as [_ Hnth].
  destruct (Hnth k r Hk) as [opt [_ Hr]].
  destruct (portal_row_fields _ _ _ _ _ _ Hr) as [d [_ ->]].
  cbn [row_background row_checked].
  pose proof (nat_opt_eqb_iff (Portal.hoveredIndex ps) k) as Hiff.
  destruct (Portal.nat_opt_eqb (Portal.hoveredIndex ps) k).
  - assert (He : Portal.hoveredIndex ps = Some k) by now apply Hiff.
    split; split; intros; try discriminate; tauto.
  - assert (Hne : Portal.hoveredIndex ps <> Some k).
    { intros E. apply Hiff in E. discriminate. }
    destruct (selected p h opt); split; split; intros; try discriminate;
      try tauto;
      match goal with H : _ /\ false = true |- _ => destruct H; discriminate end.
Qed.

Lemma hover_background_wins_witness :
  exists v r,
    Portal.render clear_demo_props (st open_with_text)
      (Portal.row_onMouseEnter 1 Portal.unmounted)
      (idle_engine clear_demo_props) = Normal v /\
    nth_error (Portal.rows_of v) 1 = Some r /\
    row_checked r = true /\
    row_background r = BgHover.
Proof.
  eexists. eexists. split; [reflexivity |]. split; [reflexivity |].
  split; [reflexivity |].
  exact (proj2 (proj1 (hover_background_wins clear_demo_props (st open_with_text)
                         (Portal.row_onMouseEnter 1 Portal.unmounted)
                         (idle_engine clear_demo_props) _ eq_refl 1 _ eq_refl))
               eq_refl).
Defined.

(** X14: leaving a row clears the hover only if that row is the hovered one.
    After entering row [j], a leave of row [i] removes the highlight when
    [i = j] and keeps it on [j] otherwise, so a late leave of the previous row
    does not erase the new highlight; anchor and container are untouched. *)
Theorem hover_leave_only_own_row (i j : nat) (ps : Portal.PortalState) :
  let ps' := Portal.row_onMouseLeave i (Portal.row_onMouseEnter j ps) in
  Portal.hoveredIndex ps' = (if Nat.eqb j i then None else Some j) /\
  Portal.hoveredIndex (Portal.row_onMouseLeave i ps') = Portal.hoveredIndex ps' /\
  Portal.anchorEl ps' = Portal.anchorEl ps /\
  Portal.portalContainer ps' = Portal.portalContainer ps.
Proof.
  cbn. destruct (Nat.eqb j i) eqn:E; cbn; [| rewrite E]; repeat split.
Qed.

Lemma disabledOpt_absent (p : Props) (opt : Primitive) :
  getOptionDisabled p = None -> disabledOpt p opt = Normal false.
Proof.
  intros H. unfold disabledOpt. now rewrite H.
Qed.

(** With no [getOptionDisabled] prop the rendering of a hook result always
    ends normally, and no row of it is marked or styled as disabled. *)
Lemma render_without_predicate (p : Props) (s : State)
    (ps : Portal.PortalState) (h : HookResult) :
  getOptionDisabled p = None ->
  (exists v,
     Portal.render p s ps h = Normal v /\
     Forall (fun r => row_aria_disabled r = false /\ row_disabled_style r = false)
            (Portal.rows_of v)) /\
  (exists v,
     Inline.render p s h = Normal v /\
     forall lb, Inline.view_listbox v = Some lb ->
       Forall (fun r => row_aria_disabled r = false /\ row_disabled_style r = false)
              (lb_rows lb)).
Proof.
  intros Hnone. split.
  - destruct (portal_render_total p s ps h) as [v Hv].
    { intros opt _. exists false. now apply disabledOpt_absent. }
    exists v. split; [exact Hv |].
    destruct (portal_rows_rendered _ _ _ _ _ Hv) as [_ Hnth].
    apply Forall_forall. intros r Hin.
    destruct (In_nth_error _ _ Hin) as [k Hk].
    destruct (Hnth k r Hk) as [opt [_ Hr]].
    destruct (portal_row_fields _ _ _ _ _ _ Hr) as [d [Hd ->]].
    rewrite (disabledOpt_absent p opt Hnone) in Hd. injection Hd as <-.
    now split.
  - unfold Inline.render, Inline.render_listbox.
    destruct (open s && Nat.ltb 0 (List.length (groupedOptions h)));
      [| eexists; split; [reflexivity |]; cbn; discriminate].
    destruct (map_completion (Inline.render_row p h) 0 (groupedOptions h))
      as [rows | e] eqn:Hrows.
    + cbn [cbind]. eexists. split; [reflexivity |]. cbn.
      intros lb [= <-]. cbn [lb_rows].
      destruct (map_completion_rows _ _ _ _ Hrows) as [_ Hnth].
      apply Forall_forall. intros r Hin.
      destruct (In_nth_error _ _ Hin) as [k Hk].
      destruct (Hnth k r Hk) as [opt [_ Hr]].
      unfold Inline.render_row in Hr.
      rewrite (disabledOpt_absent p opt Hnone) in Hr. cbn in Hr.
      injection Hr as <-. now split.
    + exfalso.
      destruct (map_completion_normal (Inline.render_row p h) (groupedOptions h) 0)
        as [ys Hys].
      * intros j x _. unfold Inline.render_row.
        rewrite (disabledOpt_absent p x Hnone). cbn. eexists; reflexivity.
      * rewrite Hys in Hrows. discriminate.
Qed.

(** X15: with no [getOptionDisabled] prop nothing the component itself calls
    can throw: whenever the call of the hook returns, both revisions render,
    and no row of the result is marked or styled as disabled. *)
Theorem no_predicate_no_disabled_rows
    (E : HookConfig -> Completion HookResult) (p : Props) (s : State)
    (ps : Portal.PortalState) (h hi : HookResult) :
  getOptionDisabled p = None ->
  E (Portal.hook_config p s) = Normal h ->
  E (Inline.hook_config p s) = Normal hi ->
  (exists v,
     Portal.component E p s ps = Normal v /\
     Forall (fun r => row_aria_disabled r = false /\ row_disabled_style r = false)
            (Portal.rows_of v)) /\
  (exists v,
     Inline.component E p s = Normal v /\
     forall lb, Inline.view_listbox v = Some lb ->
       Forall (fun r => row_aria_disabled r = false /\ row_disabled_style r = false)
              (lb_rows lb)).
Proof.
  intros Hnone Hh Hhi. unfold Portal.component, Inline.component.
  rewrite Hh, Hhi. cbn [cbind]. split.
  - exact (proj1 (render_without_predicate p s ps h Hnone)).
  - exact (proj2 (render_without_predicate p s ps hi Hnone)).
Qed.

Lemma no_predicate_no_disabled_rows_witness :
  getOptionDisabled single_demo_props = None /\
  exists v,
    Portal.component (useAutocomplete_spec no_numbers true) single_demo_props
      (st open_no_text) Portal.unmounted = Normal v /\
    map row_option (Portal.rows_of v) = [PStr "Bridge"; PStr "Road"; PStr "Tunnel"] /\
    Forall (fun r => row_aria_disabled r = false /\ row_disabled_style r = false)
           (Portal.rows_of v).
Proof.
  split; [reflexivity |].
  destruct (proj1 (no_predicate_no_disabled_rows
                     (useAutocomplete_spec no_numbers true) single_demo_props
                     (st open_no_text) Portal.unmounted _ _
                     eq_refl eq_refl eq_refl)) as [v [Hv Hrows]].
  exists v. split; [exact Hv |]. split; [| exact Hrows].
  cbv in Hv. injection Hv as <-. reflexivity.
Defined.

(** X16: with no option to show, both revisions render without consulting the
    caller's predicate and show no popup, open or not; and while the popup is
    closed the first revision renders no listbox and does not consult the
    predicate either, whatever the options. *)
Theorem nothing_to_show_no_popup (p : Props) (s : State)
    (ps : Portal.PortalState) (h : HookResult) :
  groupedOptions h = [] ->
  Portal.render p s ps h = Normal (Portal.view p s ps h []) /\
  Portal.popper_open (Portal.view_popper (Portal.view p s ps h [])) = false /\
  Inline.render p s h = Normal (Inline.view p s h None) /\
  (forall h', Inline.render p {| open := false; input := input s |} h' =
              Normal (Inline.view p {| open := false; input := input s |} h' None)).
Proof.
  intros Hg. unfold Portal.render, Inline.render, Inline.render_listbox.
  cbn [Portal.view Portal.view_popper Portal.popper_open open].
  rewrite Hg. cbn. rewrite andb_false_r. repeat split.
Qed.

Lemma nothing_to_show_no_popup_witness :
  Portal.render throwing_demo_props (st open_with_text) Portal.unmounted
    {| groupedOptions := [];
       uaValue := VNull;
       focused := true;
       getOptionProps := getOptionProps (idle_engine throwing_demo_props);
       tag_onDelete := fun _ => ret tt |} =
  Normal (Portal.view throwing_demo_props (st open_with_text) Portal.unmounted
            {| groupedOptions := [];
               uaValue := VNull;
               focused := true;
               getOptionProps := getOptionProps (idle_engine throwing_demo_props);
               tag_onDelete := fun _ => ret tt |} []).
Proof.
  exact (proj1 (nothing_to_show_no_popup throwing_demo_props (st open_with_text)
                  Portal.unmounted
                  {| groupedOptions := [];
                     uaValue := VNull;
                     focused := true;
                     getOptionProps := getOptionProps (idle_engine throwing_demo_props);
                     tag_onDelete := fun _ => ret tt |} eq_refl)).
Defined.

(* ================================================================== *)
(** * Properties of the checkmark *)

Lemma same_value_zero_refl (a : Primitive) : same_value_zero a a = true.
Proof.
  destruct a as [t | x]; cbn.
  - apply String.eqb_refl.
  - unfold PrimFloat.is_nan. now destruct (PrimFloat.eqb x x).
Qed.

Lemma includes_member (l : list Primitive) (x : Primitive) :
  In x l -> includes l x = true.
Proof.
  intros Hin. unfold includes. apply existsb_exists.
  exists x. split; [exact Hin | apply same_value_zero_refl].
Qed.

(** X17: in multi-select mode every option that occurs in the engine's value
    is checked, a NaN included, since [includes] finds NaN. *)
Theorem multi_checks_every_member (p : Props) (h : HookResult)
    (l : list Primitive) (opt : Primitive) :
  multiple p = true ->
  uaValue h = VArr l ->
  In opt l ->
  selected p h opt = true.
Proof.
  intros Hm Hua Hin. unfold selected. rewrite Hm, Hua.
  now apply includes_member.
Qed.

Lemma multi_checks_every_member_witness :
  selected clear_demo_props (idle_engine clear_demo_props) (PStr "Road") = true.
Proof.
  exact (multi_checks_every_member clear_demo_props (idle_engine clear_demo_props)
           [PStr "Bridge"; PStr "Road"] (PStr "Road")
           eq_refl eq_refl (or_intror (or_introl eq_refl))).
Defined.

(** X18: in single-select mode the checkmark is decided by [===], which no
    NaN passes: the option equal to a numeric value is checked exactly when
    that number is not a NaN, so a NaN value never shows a checkmark (in
    multi-select mode it does). *)
Theorem single_never_checks_nan (p : Props) (h : HookResult) (x : number) :
  multiple p = false ->
  uaValue h = VPrim (PNum x) ->
  selected p h (PNum x) = negb (PrimFloat.is_nan x).
Proof.
  intros Hm Hua. unfold selected. rewrite Hm, Hua. cbn.
  unfold PrimFloat.is_nan. now rewrite negb_involutive.
Qed.

Lemma single_never_checks_nan_witness :
  selected single_demo_props
    {| groupedOptions := [PNum PrimFloat.nan];
       uaValue := VPrim (PNum PrimFloat.nan);
       focused := false;
       getOptionProps := getOptionProps (idle_engine single_demo_props);
       tag_onDelete := fun _ => ret tt |} (PNum PrimFloat.nan) = false.
Proof.
  exact (single_never_checks_nan single_demo_props
           {| groupedOptions := [PNum PrimFloat.nan];
              uaValue := VPrim (PNum PrimFloat.nan);
              focused := false;
              getOptionProps := getOptionProps (idle_engine single_demo_props);
              tag_onDelete := fun _ => ret tt |} PrimFloat.nan eq_refl eq_refl).
Defined.

(* ================================================================== *)
(** * Further properties of the portal container *)

Lemma find_split {A} (f : A -> bool) (l : list A) :
  match find f l with
  | Some c => exists pre post,
                l = pre ++ c :: post /\ f c = true /\
                Forall (fun e => f e = false) pre
  | None => Forall (fun e => f e = false) l
  end.
Proof.
  induction l as [| x rest IH]; cbn [find]; [constructor |].
  destruct (f x) eqn:Hx.
  - exists [], rest. repeat split; [exact Hx | constructor].
  - destruct (find f rest) as [c |].
    + destruct IH as (pre & post & -> & Hc & Hpre).
      exists (x :: pre), post. repeat split; [exact Hc |].
      now constructor.
    + now constructor.
Qed.

(** X19: once an anchor is set and the effect has run, the container is never
    null: it is the first element, going from the anchor upward, that passes
    the effect's test, every element before it failing the test, or it is the
    document's [body] when the anchor and all its ancestors fail it.  Anchor
    and hover state are as they were. *)
Theorem mounted_container_is_nearest_or_body (doc : Portal.Document)
    (a : Portal.HTMLElement) (ps : Portal.PortalState) :
  let ps' := Portal.run_portal_effect doc (Portal.set_anchor (Some a) ps) in
  Portal.anchorEl ps' = Some a /\
  Portal.hoveredIndex ps' = Portal.hoveredIndex ps /\
  exists c,
    Portal.portalContainer ps' = Some c /\
    ((exists pre post,
        Portal.ancestors a = pre ++ c :: post /\
        Portal.defines_theme doc c = true /\
        Forall (fun e => Portal.defines_theme doc e = false) pre) \/
     (c = Portal.body doc /\
      Forall (fun e => Portal.defines_theme doc e = false) (Portal.ancestors a))).
Proof.
  cbn zeta. cbn [Portal.run_portal_effect Portal.set_anchor Portal.anchorEl
                   Portal.hoveredIndex Portal.portalContainer].
  split; [reflexivity | split; [reflexivity |]].
  rewrite portal_container_nearest.
  pose proof (find_split (Portal.defines_theme doc) (Portal.ancestors a)) as H.
  destruct (find (Portal.defines_theme doc) (Portal.ancestors a)) as [c |].
  - exists c. split; [reflexivity |]. now left.
  - exists (Portal.body doc). split; [reflexivity |]. now right.
Qed.

(** When the anchor is taken away the effect returns early: the container
    found for the last anchor stays. *)
Lemma unmount_keeps_container (doc : Portal.Document) (ps : Portal.PortalState) :
  Portal.portalContainer
    (Portal.run_portal_effect doc (Portal.set_anchor None ps)) =
  Portal.portalContainer ps.
Proof. reflexivity. Qed.

Lemma defines_theme_without_view (doc : Portal.Document) (el : Portal.HTMLElement) :
  Portal.defaultView doc = false -> Portal.defines_theme doc el = false.
Proof.
  intros Hv. unfold Portal.defines_theme, Portal.fg, Portal.computed_value.
  now rewrite Hv.
Qed.

(** X20: in a document without a [defaultView] no computed style can be read,
    and the portal is mounted on [body] whatever the elements declare. *)
Theorem no_view_mounts_on_body (doc : Portal.Document) (a : Portal.HTMLElement)
    (prev : option Portal.HTMLElement) :
  Portal.defaultView doc = false ->
  Portal.portal_container_effect doc (Some a) prev = Some (Portal.body doc).
Proof.
  intros Hv. rewrite portal_container_nearest.
  pose proof (find_split (Portal.defines_theme doc) (Portal.ancestors a)) as H.
  destruct (find (Portal.defines_theme doc) (Portal.ancestors a)) as [c |];
    [| reflexivity].
  destruct H as (pre & post & _ & Hc & _).
  rewrite (defines_theme_without_view doc c Hv) in Hc. discriminate.
Qed.

Lemma no_view_mounts_on_body_witness :
  option_map Portal.tagName
    (Portal.portal_container_effect
       {| Portal.body := Portal.demo_body; Portal.defaultView := false |}
       (Some Portal.color_only_anchor) None) = Some "body".
Proof.
  exact (f_equal (option_map Portal.tagName)
           (no_view_mounts_on_body
              {| Portal.body := Portal.demo_body; Portal.defaultView := false |}
              Portal.color_only_anchor None eq_refl)).
Defined.

(** X21: a value padded with white space counts as defined: an element whose
    [--calcite-ui-foreground-1] has a character that is not white space (as
    [trim] sees it, U+00A0 and the other Unicode spaces being white space)
    passes the effect's test, so an anchor with such a value is its own
    container. *)
Theorem padded_token_counts (doc : Portal.Document) (a : Portal.HTMLElement)
    (prev : option Portal.HTMLElement) :
  Portal.defaultView doc = true ->
  not_blank (Portal.getPropertyValue a Portal.ui_foreground) = true ->
  Portal.portal_container_effect doc (Some a) prev = Some a.
Proof.
  intros Hv Hnb.
  assert (Ht : Portal.defines_theme doc a = true).
  { unfold Portal.defines_theme, Portal.fg, Portal.computed_value.
    rewrite Hv. cbn [or_else]. unfold not_blank in Hnb.
    destruct (truthy_string (Portal.getPropertyValue a Portal.ui_foreground)) eqn:E.
    - rewrite E. exact Hnb.
    - unfold truthy_string in E.
      destruct (String.eqb_spec (Portal.getPropertyValue a Portal.ui_foreground) "")
        as [E0 | E0]; [| discriminate].
      rewrite E0 in Hnb. discriminate. }
  cbn [Portal.portal_container_effect].
  destruct a as [t wd c up]. cbn [Portal.find_themed]. now rewrite Ht.
Qed.

Lemma padded_token_counts_witness :
  Portal.portal_container_effect Portal.demo_document
    (Some (Portal.Element "div" 240%float
             (fun name => if String.eqb name Portal.ui_foreground then " #fff " else "")
             (Some Portal.demo_form))) None =
  Some (Portal.Element "div" 240%float
          (fun name => if String.eqb name Portal.ui_foreground then " #fff " else "")
          (Some Portal.demo_form)).
Proof.
  exact (padded_token_counts Portal.demo_document
           (Portal.Element "div" 240%float
              (fun name => if String.eqb name Portal.ui_foreground then " #fff " else "")
              (Some Portal.demo_form)) None eq_refl eq_refl).
Defined.

(* ================================================================== *)
(** * The first revision's listbox *)

(** X22: when the first revision's render succeeds with the popup open and
    options to show, the listbox is rendered with [listboxWidth] and
    [listboxMaxHeight] as given and one row per shown option, in order; each
    row keeps the engine's click handler and [aria-selected] for its option and
    position, and takes its [aria-disabled] and style from the caller's
    predicate. *)
Theorem inline_listbox_mirrors_options (p : Props) (s : State) (h : HookResult)
    (v : Inline.View) :
  open s = true ->
  groupedOptions h <> [] ->
  Inline.render p s h = Normal v ->
  exists lb,
    Inline.view_listbox v = Some lb /\
    lb_width lb = listboxWidth p /\
    lb_maxHeight lb = listboxMaxHeight p /\
    map row_option (lb_rows lb) = groupedOptions h /\
    forall k r,
      nth_error (lb_rows lb) k = Some r ->
      row_onClick r = op_onClick (getOptionProps h (row_option r) k) /\
      row_aria_selected r = op_aria_selected (getOptionProps h (row_option r) k) /\
      disabledOpt p (row_option r) = Normal (row_aria_disabled r) /\
      row_disabled_style r = row_aria_disabled r /\
      row_checked r = selected p h (row_option r) /\
      row_background r = BgNone.
Proof.
  intros Ho Hne. unfold Inline.render, Inline.render_listbox. rewrite Ho.
  destruct (groupedOptions h) as [| o rest] eqn:Hg; [congruence |].
  cbn [List.length Nat.ltb Nat.leb andb].
  destruct (map_completion (Inline.render_row p h) 0 (o :: rest))
    as [rows | e] eqn:Hrows; cbn [cbind]; [| discriminate].
  intros [= <-]. cbn [Inline.view Inline.view_listbox].
  eexists. split; [reflexivity |]. cbn [lb_width lb_maxHeight lb_rows].
  destruct (map_completion_rows _ _ _ _ Hrows) as [Hlen Hnth].
  assert (Hrow : forall k r, nth_error rows k = Some r ->
            exists opt d, nth_error (o :: rest) k = Some opt /\
              disabledOpt p opt = Normal d /\
              r = {| row_option := opt;
                     row_onClick := op_onClick (getOptionProps h opt k);
                     row_disabled_style := d;
                     row_aria_disabled := d;
                     row_aria_selected := op_aria_selected (getOptionProps h opt k);
                     row_checked := selected p h opt;
                     row_background := BgNone |}).
  { intros k r Hk. destruct (Hnth k r Hk) as [opt [Hopt Hr]].
    unfold Inline.render_row in Hr. cbn [Nat.add] in Hr.
    destruct (disabledOpt p opt) as [d | e] eqn:Hd; cbn [cbind] in Hr;
      [| discriminate].
    exists opt, d. split; [exact Hopt | split; [exact Hd |]].
    now injection Hr as <-. }
  repeat split.
  - apply (nth_error_map_eq row_option); [exact Hlen |].
    intros k r Hk. destruct (Hrow k r Hk) as (opt & d & Hopt & _ & ->).
    exact Hopt.
  - destruct (Hrow k r H) as (opt & d & _ & _ & ->). reflexivity.
  - destruct (Hrow k r H) as (opt & d & _ & _ & ->). reflexivity.
  - destruct (Hrow k r H) as (opt & d & _ & Hd & ->). exact Hd.
  - destruct (Hrow k r H) as (opt & d & _ & _ & ->). reflexivity.
  - destruct (Hrow k r H) as (opt & d & _ & _ & ->). reflexivity.
  - destruct (Hrow k r H) as (opt & d & _ & _ & ->). reflexivity.
Qed.

Lemma inline_listbox_mirrors_options_witness :
  exists v lb,
    Inline.render disabled_demo_props (st open_with_text)
      (idle_engine disabled_demo_props) = Normal v /\
    Inline.view_listbox v = Some lb /\
    map row_option (lb_rows lb) = [PStr "Bridge"; PStr "Road"] /\
    map row_aria_disabled (lb_rows lb) = [false; true].
Proof.
  eexists. eexists. split; [reflexivity |]. split; [reflexivity |].
  split; [| reflexivity].
  destruct (inline_listbox_mirrors_options disabled_demo_props (st open_with_text)
              (idle_engine disabled_demo_props) _ eq_refl
              ltac:(discriminate) eq_refl)
    as (lb & Hlb & _ & _ & Hmap & _).
  cbn in Hlb. injection Hlb as <-. exact Hmap.
Defined.

(* ================================================================== *)
(** * What each callback leaves alone *)

Lemma handler_of_state (p : Props) (s : State) (a : Action) (w : World) :
  (touches_open a = false -> open (st (exec (handler_of p s a) w)) = open (st w)) /\
  (touches_input a = false -> input (st (exec (handler_of p s a) w)) = input (st w)).
Proof.
  destruct a; cbn [handler_of touches_open touches_input]; split; intros H;
    try discriminate.
  - now rewrite exec_onChange.
  - now rewrite exec_onInputChange.
  - now rewrite exec_onOpen.
  - now rewrite exec_onClose.
  - rewrite exec_call_opt_clear.
    destruct (clearable p && negb (readOnlyOrDisabled p)); [| reflexivity].
    now rewrite exec_clear_onClick.
  - rewrite exec_onClickInput.
    now destruct (negb (disabled p) && negb (readOnly p)).
  - now rewrite exec_setInput.
  - rewrite exec_open_on_focus.
    now destruct (openOnFocus p && negb (open s)).
Qed.

(** X23: no callback writes both state cells.  Committing, typing, the
    engine's text report and the clear button leave the popup state as it is,
    so over an event made of them the popup neither opens nor closes; the
    open and close requests, the click on the input and the focus leave the
    text buffer as it is. *)
Theorem callbacks_write_one_cell (p : Props) (s : State) (acts : list Action)
    (w : World) :
  (forall a, touches_open a && touches_input a = false) /\
  (forallb (fun a => negb (touches_open a)) acts = true ->
   open (st (exec (run_event p s acts) w)) = open (st w)) /\
  (forallb (fun a => negb (touches_input a)) acts = true ->
   input (st (exec (run_event p s acts) w)) = input (st w)).
Proof.
  split; [| split].
  - now intros [].
  - revert w. induction acts as [| a rest IH]; intros w H; [reflexivity |].
    cbn [forallb] in H. apply andb_true_iff in H as [Ha Hrest].
    cbn [run_event]. rewrite exec_seq, (IH _ Hrest).
    apply (handler_of_state p s a w). now destruct (touches_open a).
  - revert w. induction acts as [| a rest IH]; intros w H; [reflexivity |].
    cbn [forallb] in H. apply andb_true_iff in H as [Ha Hrest].
    cbn [run_event]. rewrite exec_seq, (IH _ Hrest).
    apply (handler_of_state p s a w). now destruct (touches_input a).
Qed.

(** X24: while the component is disabled or read-only, clicks on the input
    and on the clear button change nothing: neither the state nor the host's
    log. *)
Theorem disabled_clicks_are_inert (p : Props) (s : State) (w : World) :
  disabled p = true \/ readOnly p = true ->
  exec (run_event p s [ClickInput; ClickClear]) w = w /\
  exec (run_event p s [ClickClear; ClickInput]) w = w.
Proof.
  intros H.
  assert (R : readOnlyOrDisabled p = true).
  { unfold readOnlyOrDisabled. destruct H as [-> | ->]; [reflexivity |].
    apply orb_true_r. }
  assert (N : negb (disabled p) && negb (readOnly p) = false).
  { unfold readOnlyOrDisabled in R. now destruct (disabled p), (readOnly p). }
  cbn [run_event handler_of].
  rewrite !exec_seq, !exec_ret, !exec_call_opt_clear, !exec_onClickInput.
  rewrite R, N, andb_false_r. split; reflexivity.
Qed.

Lemma disabled_clicks_are_inert_witness :
  readOnly readonly_demo_props = true /\
  exec (run_event readonly_demo_props (st open_with_text) [ClickInput; ClickClear])
       open_with_text = open_with_text.
Proof.
  split; [reflexivity |].
  exact (proj1 (disabled_clicks_are_inert readonly_demo_props (st open_with_text)
                  open_with_text (or_intror eq_refl))).
Defined.
